(** * ChatEV: the Lightning module [MInterface] of [code/model_interface.py]

    A shallow embedding of the module's own logic: the label mask built in
    [forward], the NaN/Inf guard, the regular-expression post-processing of
    the epoch-end hooks, the optimizer/scheduler selection and the loader.
    What the module calls into (tokenizer, model, PEFT, scikit-learn, the
    scheduler of [optims], the builtin [float]) is an interface,
    [Libraries], that every definition is parametric in. *)

From Stdlib Require Import ZArith String Ascii Bool List Lia.
From Stdlib Require Import Floats.SpecFloat DecimalString.
Import ListNotations.

Local Open Scope string_scope.
Local Open Scope list_scope.

Set Implicit Arguments.

(** ** Python values, exceptions and results *)

Module Py.

(** The exceptions the module can meet.  [sys.exit()] raises [SystemExit]. *)
Inductive exn : Type :=
| IndexError
| ValueError (msg : string)
| TypeError
| AttributeError (name : string)
| RuntimeError
| SystemExit.

Inductive result (A : Type) : Type :=
| Ok (a : A)
| Raise (e : exn).

Arguments Ok {A} a.
Arguments Raise {A} e.

Definition bind {A B} (r : result A) (k : A -> result B) : result B :=
  match r with
  | Ok a => k a
  | Raise e => Raise e
  end.

(** A Python [float] is an IEEE 754 binary64 value. *)
Definition float : Type := spec_float.
Definition prec : Z := 53.
Definition emax : Z := 1024.

Definition isnan (x : float) : bool :=
  match x with S754_nan => true | _ => false end.

Definition isinf (x : float) : bool :=
  match x with S754_infinity _ => true | _ => false end.

(** [float(z)] for an integer. *)
Definition float_of_int (z : Z) : float := binary_normalize prec emax z 0 false.

(** The float a decimal literal [n/d] denotes: the correctly rounded
    quotient of two exactly representable integers ([0.05] is [5/100]). *)
Definition float_of_ratio (n d : positive) : float :=
  SFdiv prec emax (float_of_int (Zpos n)) (float_of_int (Zpos d)).

(** The numbers that end up in the metric lists: [float(...)] results and
    the integer [0] of the [except] branch. *)
Inductive number : Type :=
| Int (z : Z)
| Float (f : float).

(** Hyper-parameter values compared with [is None] and [==]. *)
Inductive value : Type :=
| VNone
| VBool (b : bool)
| VInt (z : Z)
| VStr (s : string).

(** [l[-1]] and [l[0]] on a list. *)
Definition index_last {A} (l : list A) : result A :=
  match rev l with
  | [] => Raise IndexError
  | x :: _ => Ok x
  end.

Definition index_first {A} (l : list A) : result A :=
  match l with
  | [] => Raise IndexError
  | x :: _ => Ok x
  end.

End Py.

Import Py.

Declare Scope result_scope.
Delimit Scope result_scope with res.
Notation "x <- c1 ;; c2" := (Py.bind c1 (fun x => c2))
  (at level 61, c1 at next level, right associativity) : result_scope.
Local Open Scope result_scope.

(** ** [re.findall(r'<(.*?)>', s)]

    The pattern is a literal [<], a lazy group of characters other than the
    line feed (no [re.DOTALL]), and a literal [>].  [findall] tries the
    pattern at each position from the left; after a match it goes on behind
    the closing bracket, otherwise one character further.  A text is the
    sequence of its UTF-8 bytes: the three characters the pattern looks at
    are ASCII and occur in the bytes exactly where they occur in the
    text. *)

Module Re.

Definition lt_sign : ascii := "<"%char.
Definition gt_sign : ascii := ">"%char.
Definition newline : ascii := "010"%char.

(** [lazy_group s]: the group of the pattern tried on [< ++ s], with the
    text left behind the closing [>]; [None] when a line feed or the end of
    the text comes first. *)
Fixpoint lazy_group (s : string) : option (string * string) :=
  match s with
  | EmptyString => None
  | String c r =>
      if Ascii.eqb c gt_sign then Some (EmptyString, r)
      else if Ascii.eqb c newline then None
      else match lazy_group r with
           | Some (g, rest) => Some (String c g, rest)
           | None => None
           end
  end.

Fixpoint findall (s : string) : list string :=
  match s with
  | EmptyString => []
  | String c r =>
      if Ascii.eqb c lt_sign then
        (fix group (acc : string -> string) (t : string) {struct t}
           : list string :=
           match t with
           | EmptyString => findall r
           | String d t' =>
               if Ascii.eqb d gt_sign then acc EmptyString :: findall t'
               else if Ascii.eqb d newline then findall r
               else group (fun g => acc (String d g)) t'
           end) (fun g => g) r
      else findall r
  end.

(** [occurs c s]: the character occurs in the text. *)
Fixpoint occurs (c : ascii) (s : string) : Prop :=
  match s with
  | EmptyString => False
  | String d r => d = c \/ occurs c r
  end.

(** The text holds a [<], later a [>]: a [<...>] substring. *)
Definition bracketed (s : string) : Prop :=
  exists pre g post, s = (pre ++ String lt_sign (g ++ String gt_sign post))%string.

(** The text holds a [<...>] substring with no line feed inside: what the
    pattern can match. *)
Definition bracketed_in_line (s : string) : Prop :=
  exists pre g post,
    s = (pre ++ String lt_sign (g ++ String gt_sign post))%string
    /\ ~ occurs newline g.

(** A [<] before this text starts no match: a line feed comes before any [>]. *)
Definition stops_at_newline (s : string) : Prop :=
  exists b1 b2, s = (b1 ++ String newline b2)%string /\ ~ occurs gt_sign b1.

(** No match starts inside the text, whatever follows it. *)
Fixpoint no_start (pre : string) : Prop :=
  match pre with
  | EmptyString => True
  | String c r => (c = lt_sign -> stops_at_newline r) /\ no_start r
  end.

End Re.

(** ** Tensors and the few [torch] operations the module uses *)

Module Torch.

(** [input_ids], [attention_mask], [token_type_ids]: batch x length. *)
Definition itensor : Type := list (list Z).
Definition btensor : Type := list (list bool).
(** The elements of a floating-point tensor (the loss), in storage order. *)
Definition ftensor : Type := list float.

(** [t == v] for a scalar [v]. *)
Definition eq_scalar (t : itensor) (v : Z) : btensor :=
  map (map (fun x => Z.eqb x v)) t.

(** Broadcasting of one dimension of a mask to size [n]: sizes agree, or the
    mask has size one there. *)
Definition expand {A} (n : nat) (l : list A) : result (list A) :=
  if Nat.eqb (length l) n then Ok l
  else match l with
       | [x] => Ok (repeat x n)
       | _ => Raise RuntimeError
       end.

Definition fill_row (v : Z) (row : list Z) (mask : list bool) : list Z :=
  map (fun p : Z * bool => if snd p then v else fst p) (combine row mask).

Fixpoint fill_rows (v : Z) (t : itensor) (mask : btensor) : result itensor :=
  match t, mask with
  | row :: t', mrow :: mask' =>
      mrow' <- expand (length row) mrow ;;
      rest <- fill_rows v t' mask' ;;
      Ok (fill_row v row mrow' :: rest)
  | _, _ => Ok []
  end.

(** [t.masked_fill(mask, v)]: out of place; the mask is broadcast to the
    shape of [t], a shape that does not broadcast raises. *)
Definition masked_fill (t : itensor) (mask : btensor) (v : Z) : result itensor :=
  mask' <- expand (length t) mask ;;
  fill_rows v t mask'.

Definition isnan (t : ftensor) : list bool := map Py.isnan t.
Definition isinf (t : ftensor) : list bool := map Py.isinf t.

(** [a | b] on two boolean tensors of one shape. *)
Definition bit_or (a b : list bool) : list bool :=
  map (fun p : bool * bool => orb (fst p) (snd p)) (combine a b).

(** [t.any().item()] *)
Definition any (t : list bool) : bool := existsb (fun b => b) t.

End Torch.

Import Torch.

(** ** Data of the module and of the libraries *)

(** A text or a text pair handed to the tokenizer. *)
Inductive text_input : Type :=
| Single (text : string)
| Pair (text text_pair : string).

Record BatchEncoding : Type := {
  input_ids : itensor;
  attention_mask : itensor;
  token_type_ids : itensor;
}.

(** A batch of the data loader: [batch['input']], [batch['answer']]. *)
Record Batch : Type := {
  input : list string;
  answer : list string;
}.

Record TokenizerRequest : Type := {
  tr_model_id : string;
  tr_token : string;
  tr_cache_dir : string;
  tr_padding_side : string;
}.

Inductive dtype : Type := float16 | float32 | bfloat16.

Record BitsAndBytesConfig : Type := {
  load_in_4bit : bool;
  bnb_4bit_quant_type : string;
  bnb_4bit_compute_dtype : dtype;
  bnb_4bit_use_double_quant : bool;
}.

(** [self.cuda]: [nn.Module.cuda], the inherited method, until [__init__]
    shadows it with the device string. *)
Inductive cuda_attr : Type :=
| CudaMethod
| Device (name : string).

Record ModelRequest : Type := {
  mr_model_id : string;
  mr_token : string;
  quantization_config : BitsAndBytesConfig;
  device_map : cuda_attr;
  mr_cache_dir : string;
  attn_implementation : string;
}.

Record LoraConfig : Type := {
  r : Z;
  lora_alpha : Z;
  lora_dropout : float;
  bias : string;
  task_type : string;
  target_modules : list string;
}.

(** The keyword arguments of [self.model.generate]. *)
Record GenerateArgs : Type := {
  g_input_ids : itensor;
  g_attention_mask : itensor;
  g_temperature : number;
  g_do_sample : bool;
  g_num_beams : Z;
  g_max_new_tokens : Z;
  g_min_new_tokens : Z;
  g_pad_token_id : option Z;
  g_repetition_penalty : float;
  g_length_penalty : float;
  g_num_return_sequences : Z;
  g_output_scores : bool;
  g_return_dict_in_generate : bool;
  g_return_legacy_cache : bool;
}.

(** The keyword parameters of [MInterface.generate] and their defaults. *)
Record GenerateParams : Type := {
  temperature : number;
  do_sample : bool;
  num_beams : Z;
  min_gen_length : Z;
  repetition_penalty : float;
  length_penalty : float;
  num_return_sequences : Z;
}.

Definition one : float := float_of_ratio 1 1.

Definition default_params : GenerateParams :=
  {| temperature := Int 0; do_sample := false; num_beams := 1;
     min_gen_length := 1; repetition_penalty := one; length_penalty := one;
     num_return_sequences := 1 |}.

(** [self.hparams]: the attributes the module reads; [weight_decay] is the
    one it tests with [hasattr]. *)
Record HParams : Type := {
  hp_cuda : string;
  lr : float;
  lr_scheduler : value;
  lr_decay_min_lr : float;
  lr_warmup_start_lr : float;
  weight_decay : option float;
  max_input_length : Z;
  max_gen_length : Z;
  batch_size : Z;
}.

(** What the module reads of [self.trainer]. *)
Record Trainer : Type := {
  global_step : Z;
  current_epoch : Z;
  max_steps : Z;
}.

(** [self.val_content] / [self.test_content]. *)
Record Content : Type := {
  c_input : list string;
  generated_text : list string;
  label : list string;
}.

Definition empty_content : Content :=
  {| c_input := []; generated_text := []; label := [] |}.

Record Tokenizer (V : Type) : Type := {
  vocab : V;
  pad_token_id : option Z;
  eos_token_id : option Z;
}.

Definition set_pad_token_id {V} (t : Tokenizer V) (p : option Z) : Tokenizer V :=
  {| vocab := vocab t; pad_token_id := p; eos_token_id := eos_token_id t |}.

Record ParamGroup (P : Type) : Type := {
  params : P;
  pg_lr : float;
  pg_weight_decay : number;
}.

(** [torch.optim.AdamW(param_groups)] *)
Inductive Optimizer (P : Type) : Type :=
| AdamW (param_groups : list (ParamGroup P)).

Definition param_groups {P} (o : Optimizer P) : list (ParamGroup P) :=
  match o with AdamW g => g end.

(** [optims.LinearWarmupCosineLRScheduler(optimizer, max_step=..., ...)]:
    the class lives in [optims], outside this file; an object is the
    arguments it was built with, its [step] is [scheduler_step] of
    [Libraries]. *)
Record Scheduler (P : Type) : Type := {
  optimizer : Optimizer P;
  sch_max_step : Z;
  sch_min_lr : float;
  sch_init_lr : float;
  sch_warmup_steps : Z;
  sch_warmup_start_lr : float;
}.

(** The libraries behind the module. *)
Class Libraries : Type := {
  Vocab : Type;
  BaseModel : Type;
  Model : Type;
  Params : Type;
  (** [AutoTokenizer.from_pretrained] *)
  AutoTokenizer_from_pretrained : TokenizerRequest -> Tokenizer Vocab;
  (** [tokenizer(texts, return_tensors='pt', max_length=n,
      padding="max_length", truncation=True, return_token_type_ids=True)] *)
  tokenizer_call : Tokenizer Vocab -> list text_input -> Z -> BatchEncoding;
  (** [tokenizer.batch_decode(ids, skip_special_tokens=True,
      clean_up_tokenization_spaces=False)] *)
  batch_decode : Tokenizer Vocab -> itensor -> list string;
  (** [AutoModelForCausalLM.from_pretrained] *)
  AutoModelForCausalLM_from_pretrained : ModelRequest -> BaseModel;
  get_peft_model : BaseModel -> LoraConfig -> Model;
  (** [model(input_ids=, attention_mask=, labels=).loss] *)
  model_loss : Model -> itensor -> itensor -> itensor -> ftensor;
  (** [model.generate(...)['sequences']] *)
  model_generate : Model -> GenerateArgs -> itensor;
  model_parameters : Model -> Params;
  (** [scheduler.step(cur_step, cur_epoch, max_step)] *)
  scheduler_step : Scheduler Params -> Z -> Z -> Z -> Scheduler Params;
  (** the builtin [float(s)]; [None] is its [ValueError] *)
  py_float : string -> option float;
  (** [sklearn.metrics.mean_absolute_error(y_true, y_pred)] *)
  mean_absolute_error : list number -> list number -> result float;
}.

(** ** The module's state and what it does *)

Inductive method : Type :=
| m_init | m_forward | m_training_step | m_generate
| m_on_validation_epoch_start | m_validation_step | m_on_validation_epoch_end
| m_on_test_epoch_start | m_test_step | m_on_test_epoch_end
| m_configure_optimizers | m_load_llm.

Definition method_eqb (a b : method) : bool :=
  match a, b with
  | m_init, m_init | m_forward, m_forward
  | m_training_step, m_training_step | m_generate, m_generate
  | m_on_validation_epoch_start, m_on_validation_epoch_start
  | m_validation_step, m_validation_step
  | m_on_validation_epoch_end, m_on_validation_epoch_end
  | m_on_test_epoch_start, m_on_test_epoch_start
  | m_test_step, m_test_step
  | m_on_test_epoch_end, m_on_test_epoch_end
  | m_configure_optimizers, m_configure_optimizers
  | m_load_llm, m_load_llm => true
  | _, _ => false
  end.

(** A value handed to [self.log]. *)
Inductive logged : Type :=
| LTensor (t : ftensor)
| LFloat (f : float)
| LInt (z : Z).

Section MInterface.

Context {L : Libraries}.

(** What an instance does, oldest first: the methods it enters, what it
    prints and logs, and the library calls that create or run a model, an
    optimizer or a scheduler. *)
Inductive event : Type :=
| Enter (m : method)
| Print (s : string)
| Log (name : string) (v : logged)
| LoadTokenizer (req : TokenizerRequest)
| LoadModel (req : ModelRequest)
| WrapPeft (base : BaseModel) (cfg : LoraConfig)
| RunModel (ids mask labels : itensor)
| RunGenerate (args : GenerateArgs)
| NewAdamW (groups : list (ParamGroup Params))
| NewScheduler (s : Scheduler Params).

(** The attributes of an instance; [None] is an attribute not yet
    assigned.  [trace] is the history of the instance. *)
Record MInterface : Type := {
  hparams : HParams;
  trainer : Trainer;
  cuda : cuda_attr;
  tokenizer : option (Tokenizer Vocab);
  model : option Model;
  scheduler : option (option (Scheduler Params));
  val_content : option Content;
  test_content : option Content;
  trace : list event;
}.

Definition set_cuda (v : cuda_attr) (s : MInterface) : MInterface :=
  {| hparams := hparams s; trainer := trainer s; cuda := v;
     tokenizer := tokenizer s; model := model s; scheduler := scheduler s;
     val_content := val_content s; test_content := test_content s;
     trace := trace s |}.

Definition set_tokenizer (v : Tokenizer Vocab) (s : MInterface) : MInterface :=
  {| hparams := hparams s; trainer := trainer s; cuda := cuda s;
     tokenizer := Some v; model := model s; scheduler := scheduler s;
     val_content := val_content s; test_content := test_content s;
     trace := trace s |}.

Definition set_model (v : Model) (s : MInterface) : MInterface :=
  {| hparams := hparams s; trainer := trainer s; cuda := cuda s;
     tokenizer := tokenizer s; model := Some v; scheduler := scheduler s;
     val_content := val_content s; test_content := test_content s;
     trace := trace s |}.

Definition set_scheduler (v : option (Scheduler Params)) (s : MInterface)
  : MInterface :=
  {| hparams := hparams s; trainer := trainer s; cuda := cuda s;
     tokenizer := tokenizer s; model := model s; scheduler := Some v;
     val_content := val_content s; test_content := test_content s;
     trace := trace s |}.

Definition set_val_content (v : Content) (s : MInterface) : MInterface :=
  {| hparams := hparams s; trainer := trainer s; cuda := cuda s;
     tokenizer := tokenizer s; model := model s; scheduler := scheduler s;
     val_content := Some v; test_content := test_content s;
     trace := trace s |}.

Definition set_test_content (v : Content) (s : MInterface) : MInterface :=
  {| hparams := hparams s; trainer := trainer s; cuda := cuda s;
     tokenizer := tokenizer s; model := model s; scheduler := scheduler s;
     val_content := val_content s; test_content := Some v;
     trace := trace s |}.

Definition record (e : event) (s : MInterface) : MInterface :=
  {| hparams := hparams s; trainer := trainer s; cuda := cuda s;
     tokenizer := tokenizer s; model := model s; scheduler := scheduler s;
     val_content := val_content s; test_content := test_content s;
     trace := trace s ++ [e] |}.

(** A method body: it ends in a value or an exception and leaves the
    instance as it was at that point. *)
Definition M (A : Type) : Type := MInterface -> result A * MInterface.

Definition ret {A} (a : A) : M A := fun s => (Ok a, s).

Definition raise {A} (e : exn) : M A := fun s => (Raise e, s).

Definition mbind {A B} (c : M A) (k : A -> M B) : M B :=
  fun s =>
    match c s with
    | (Ok a, s') => k a s'
    | (Raise e, s') => (Raise e, s')
    end.

Definition lift {A} (x : result A) : M A := fun s => (x, s).

Definition gets {A} (f : MInterface -> A) : M A := fun s => (Ok (f s), s).

Definition modify (f : MInterface -> MInterface) : M unit :=
  fun s => (Ok tt, f s).

Definition emit (e : event) : M unit := modify (record e).

(** Reading an attribute that may not be assigned yet. *)
Definition attr {A} (name : string) (f : MInterface -> option A) : M A :=
  fun s =>
    match f s with
    | Some a => (Ok a, s)
    | None => (Raise (AttributeError name), s)
    end.

End MInterface.

Declare Scope method_scope.
Delimit Scope method_scope with M.
Notation "x <- c1 ;; c2" := (mbind c1 (fun x => c2))
  (at level 61, c1 at next level, right associativity) : method_scope.
Notation "c1 ;; c2" := (mbind c1 (fun _ => c2))
  (at level 61, right associativity) : method_scope.

Section Methods.

Context {L : Libraries}.

Local Open Scope method_scope.

Definition print (s : string) : M unit := emit (Print s).

(** [self.log(name, v, ...)] *)
Definition log (name : string) (v : logged) : M unit := emit (Log name v).

(** [str(n)] for an integer, as an f-string prints it. *)
Definition str_of_int (n : Z) : string := NilZero.string_of_int (Z.to_int n).

(** *** [load_llm] *)

Definition bnb_config (torch_dtype : dtype) : BitsAndBytesConfig :=
  {| load_in_4bit := true;
     bnb_4bit_quant_type := "nf4";
     bnb_4bit_compute_dtype := torch_dtype;
     bnb_4bit_use_double_quant := true |}.

Definition peft_config : LoraConfig :=
  {| r := 16;
     lora_alpha := 32;
     lora_dropout := float_of_ratio 5 100;
     bias := "none";
     task_type := "CAUSAL_LM";
     target_modules :=
       ["up_proj"; "down_proj"; "gate_proj"; "k_proj"; "q_proj"; "v_proj";
        "o_proj"] |}.

Definition load_llm : M unit :=
  emit (Enter m_load_llm) ;;
  let model_name := "Llama-3.2-1B-Instruct"%string in
  let hf_token := "your_huggingface_token"%string in
  let model_source := "meta-llama/"%string in
  let model_id := (model_source ++ model_name)%string in
  let torch_dtype := float16 in
  let attn := "eager"%string in
  let cache_dir := "/home/haohao/.huggingface"%string in
  let treq := {| tr_model_id := model_id; tr_token := hf_token;
                 tr_cache_dir := cache_dir; tr_padding_side := "left" |} in
  emit (LoadTokenizer treq) ;;
  modify (set_tokenizer (AutoTokenizer_from_pretrained treq)) ;;
  tok <- attr "tokenizer" tokenizer ;;
  match pad_token_id tok with
  | None => modify (set_tokenizer (set_pad_token_id tok (eos_token_id tok)))
  | Some _ => ret tt
  end ;;
  device <- gets cuda ;;
  let mreq := {| mr_model_id := model_id; mr_token := hf_token;
                 quantization_config := bnb_config torch_dtype;
                 device_map := device; mr_cache_dir := cache_dir;
                 attn_implementation := attn |} in
  emit (LoadModel mreq) ;;
  let base := AutoModelForCausalLM_from_pretrained mreq in
  emit (WrapPeft base peft_config) ;;
  modify (set_model (get_peft_model base peft_config)) ;;
  print "Loading LLAMA Done".

(** *** [__init__]

    [blank kargs tr] is the instance [super().__init__()] and
    [save_hyperparameters()] leave: the keyword arguments are its
    [hparams], nothing else is assigned. *)
Definition blank (kargs : HParams) (tr : Trainer) : MInterface :=
  {| hparams := kargs; trainer := tr; cuda := CudaMethod;
     tokenizer := None; model := None; scheduler := None;
     val_content := None; test_content := None; trace := [] |}.

Definition __init__ : M unit :=
  emit (Enter m_init) ;;
  hp <- gets hparams ;;
  modify (set_cuda (Device ("cuda:" ++ hp_cuda hp))) ;;
  load_llm.

(** The constructor call: [__init__] on the blank instance. *)
Definition construct (kargs : HParams) (tr : Trainer) : result unit * MInterface :=
  __init__ (blank kargs tr).

(** *** [forward] *)

Definition has_nan_or_inf (tensor : ftensor) : bool :=
  let has_nan := Torch.isnan tensor in
  let has_inf := Torch.isinf tensor in
  Torch.any (Torch.bit_or has_nan has_inf).

(** The label tensor of [forward]: [target_ids] after the two
    [masked_fill]s.  A tokenizer without padding token makes
    [target_ids == None] the plain [False], which [masked_fill] rejects. *)
Definition target_ids_of (pad : option Z) (ids types : itensor) : result itensor :=
  match pad with
  | None => Raise TypeError
  | Some p =>
      (target_ids <- masked_fill ids (eq_scalar ids p) (-100) ;;
       masked_fill target_ids (eq_scalar types 0) (-100))%res
  end.

(** The embeddings of line 51 are computed and dropped, and [.to(self.cuda)]
    moves a tensor without changing it: neither shows here. *)
Definition forward (batch : Batch) : M ftensor :=
  emit (Enter m_forward) ;;
  let input_pairs :=
    map (fun p => Pair (fst p) (snd p)) (combine (input batch) (answer batch)) in
  tok <- attr "tokenizer" tokenizer ;;
  hp <- gets hparams ;;
  let input_encoding := tokenizer_call tok input_pairs (max_input_length hp) in
  let ids := input_ids input_encoding in
  let mask := attention_mask input_encoding in
  let types := token_type_ids input_encoding in
  m <- attr "model" model ;;
  target_ids <- lift (target_ids_of (pad_token_id tok) ids types) ;;
  emit (RunModel ids mask target_ids) ;;
  let lm_loss := model_loss m ids mask target_ids in
  if has_nan_or_inf lm_loss then
    print "!!!!" ;; raise SystemExit
  else ret lm_loss.

Definition configure_loss (out : ftensor) : ftensor := out.

(** *** [training_step] *)

Definition training_step (batch : Batch) (batch_idx : Z) : M ftensor :=
  emit (Enter m_training_step) ;;
  sch <- attr "scheduler" scheduler ;;
  tr <- gets trainer ;;
  match sch with
  | Some sc =>
      modify (set_scheduler
                (Some (scheduler_step sc (global_step tr) (current_epoch tr)
                                      (max_steps tr))))
  | None => ret tt
  end ;;
  out <- forward batch ;;
  let loss := configure_loss out in
  log "loss" (LTensor loss) ;;
  sch <- attr "scheduler" scheduler ;;
  match sch with
  | None => raise (AttributeError "optimizer")
  | Some sc =>
      g <- lift (index_first (param_groups (optimizer sc))) ;;
      log "lr" (LFloat (pg_lr g))
  end ;;
  log "global_step_num" (LInt (global_step tr)) ;;
  ret loss.

(** *** [generate] *)

Definition generate (batch : Batch) (p : GenerateParams) : M (list string) :=
  emit (Enter m_generate) ;;
  hp <- gets hparams ;;
  let max_gen_length := max_gen_length hp in
  let input_pairs :=
    map (fun p => Single (fst p)) (combine (input batch) (answer batch)) in
  tok <- attr "tokenizer" tokenizer ;;
  let input_encoding := tokenizer_call tok input_pairs (max_input_length hp) in
  m <- attr "model" model ;;
  let args :=
    {| g_input_ids := input_ids input_encoding;
       g_attention_mask := attention_mask input_encoding;
       g_temperature := temperature p;
       g_do_sample := do_sample p;
       g_num_beams := num_beams p;
       g_max_new_tokens := max_gen_length;
       g_min_new_tokens := min_gen_length p;
       g_pad_token_id := pad_token_id tok;
       g_repetition_penalty := repetition_penalty p;
       g_length_penalty := length_penalty p;
       g_num_return_sequences := num_return_sequences p;
       g_output_scores := true;
       g_return_dict_in_generate := true;
       g_return_legacy_cache := true |} in
  emit (RunGenerate args) ;;
  let sequence_ids := model_generate m args in
  ret (batch_decode tok sequence_ids).

(** *** Validation and test hooks

    The test hooks repeat the validation hooks on [self.test_content]; the
    shared bodies take the attribute as [name], [get] and [set]. *)

Section Hooks.

Variable name : string.
Variable get : MInterface -> option Content.
Variable set : Content -> MInterface -> MInterface.

Definition append_input (x : string) (c : Content) : Content :=
  {| c_input := c_input c ++ [x]; generated_text := generated_text c;
     label := label c |}.

Definition append_label (x : string) (c : Content) : Content :=
  {| c_input := c_input c; generated_text := generated_text c;
     label := label c ++ [x] |}.

Definition append_generated_text (x : string) (c : Content) : Content :=
  {| c_input := c_input c; generated_text := generated_text c ++ [x];
     label := label c |}.

(** [texts[b]] *)
Definition index {A} (l : list A) (b : nat) : result A :=
  match nth_error l b with
  | Some x => Ok x
  | None => Raise IndexError
  end.

(** The loop of [validation_step] / [test_step], from counter [b]. *)
Fixpoint store (texts : list string) (b : nat) (pairs : list (string * string))
  : M unit :=
  match pairs with
  | [] => ret tt
  | (prompt, answer) :: rest =>
      c <- attr name get ;;
      modify (set (append_input prompt c)) ;;
      c <- attr name get ;;
      modify (set (append_label answer c)) ;;
      c <- attr name get ;;
      text <- lift (index texts b) ;;
      modify (set (append_generated_text text c)) ;;
      store texts (S b) rest
  end.

Definition step (batch : Batch) (batch_idx : Z) : M unit :=
  texts <- generate batch default_params ;;
  store texts 0 (combine (input batch) (answer batch)).

(** [try: predict = float(predict)  except: predict = 0] *)
Definition to_prediction (predict : string) : number :=
  match py_float predict with
  | Some f => Float f
  | None => Int 0
  end.

(** [float(s)] outside a [try]. *)
Definition to_float (s : string) : result float :=
  match py_float s with
  | Some f => Ok f
  | None => Raise (ValueError "could not convert string to float")
  end.

(** One turn of the epoch-end loop: what is appended to [y_pre] and to
    [y_true]. *)
Definition extract (predict label : string) : result (number * number) :=
  (predict <- index_last (Re.findall predict) ;;
   group <- index_first (Re.findall label) ;;
   label <- to_float group ;;
   let predict := to_prediction predict in
   Ok (predict, Float label))%res.

(** The loop, with the two lists grown so far. *)
Fixpoint extract_all (pairs : list (string * string))
    (y_true y_pre : list number) : result (list number * list number) :=
  match pairs with
  | [] => Ok (y_true, y_pre)
  | (predict, label) :: rest =>
      (p <- extract predict label ;;
       extract_all rest (y_true ++ [snd p]) (y_pre ++ [fst p]))%res
  end.

Definition epoch_end : M unit :=
  c <- attr name get ;;
  ys <- lift (extract_all (combine (generated_text c) (label c)) [] []) ;;
  mae <- lift (mean_absolute_error (fst ys) (snd ys)) ;;
  log "metric" (LFloat mae).

End Hooks.

Definition on_validation_epoch_start : M unit :=
  emit (Enter m_on_validation_epoch_start) ;;
  modify (set_val_content empty_content).

Definition validation_step (batch : Batch) (batch_idx : Z) : M unit :=
  emit (Enter m_validation_step) ;;
  step "val_content" val_content set_val_content batch batch_idx.

Definition on_validation_epoch_end : M unit :=
  emit (Enter m_on_validation_epoch_end) ;;
  epoch_end "val_content" val_content.

Definition on_test_epoch_start : M unit :=
  emit (Enter m_on_test_epoch_start) ;;
  modify (set_test_content empty_content).

Definition test_step (batch : Batch) (batch_idx : Z) : M unit :=
  emit (Enter m_test_step) ;;
  step "test_content" test_content set_test_content batch batch_idx.

Definition on_test_epoch_end : M unit :=
  emit (Enter m_on_test_epoch_end) ;;
  epoch_end "test_content" test_content.

(** *** [configure_optimizers] *)

(** [v == 'cosine'] *)
Definition is_cosine (v : value) : bool :=
  match v with
  | VStr s => String.eqb s "cosine"
  | _ => false
  end.

Definition configure_optimizers : M (Optimizer Params) :=
  emit (Enter m_configure_optimizers) ;;
  hp <- gets hparams ;;
  let weight_decay :=
    match weight_decay hp with
    | Some w => Float w
    | None => Int 0
    end in
  m <- attr "model" model ;;
  let groups :=
    [ {| params := model_parameters m; pg_lr := lr hp;
         pg_weight_decay := weight_decay |} ] in
  emit (NewAdamW groups) ;;
  let optimizer := AdamW groups in
  match lr_scheduler hp with
  | VNone => ret optimizer
  | v =>
      tr <- gets trainer ;;
      let max_step := max_steps tr in
      let warmup_steps := (max_step / 20)%Z in
      print ("max_step: " ++ str_of_int max_step) ;;
      print ("warmup_steps: " ++ str_of_int warmup_steps) ;;
      if is_cosine v then
        let sch :=
          {| optimizer := optimizer;
             sch_max_step := max_step;
             sch_min_lr := lr_decay_min_lr hp;
             sch_init_lr := lr hp;
             sch_warmup_steps := warmup_steps;
             sch_warmup_start_lr := lr_warmup_start_lr hp |} in
        emit (NewScheduler sch) ;;
        modify (set_scheduler (Some sch)) ;;
        ret optimizer
      else
        modify (set_scheduler None) ;;
        raise (ValueError "Invalid lr_scheduler type!")
  end.

End Methods.

(** ** A small instance of the libraries

    A byte-level tokenizer that pads on the left, a model that answers
    every prompt with [<1>], a [float] for unsigned decimal integers and a
    sequentially summed mean absolute error: enough to run the module on
    concrete batches. *)

Module Example.

Definition encode (s : string) : list Z :=
  map (fun c => Z.of_nat (nat_of_ascii c)) (list_ascii_of_string s).

Definition decode (ids : list Z) : string :=
  string_of_list_ascii
    (map (fun z => ascii_of_nat (Z.to_nat z)) (filter (fun z => negb (Z.eqb z 0)) ids)).

(** Truncation to [n] tokens, then padding on the left. *)
Definition pad_left (n : nat) (pad : Z) (l : list Z) : list Z :=
  repeat pad (n - length l) ++ firstn n l.

Definition tokens (t : text_input) : list Z :=
  match t with
  | Single a => encode a
  | Pair a b => encode a ++ encode b
  end.

Definition segments (t : text_input) : list Z :=
  match t with
  | Single a => map (fun _ => 0%Z) (encode a)
  | Pair a b => map (fun _ => 0%Z) (encode a) ++ map (fun _ => 1%Z) (encode b)
  end.

Definition call (tok : Tokenizer unit) (texts : list text_input) (n : Z)
  : BatchEncoding :=
  let pad := match pad_token_id tok with Some p => p | None => 0%Z end in
  let n := Z.to_nat n in
  {| input_ids := map (fun t => pad_left n pad (tokens t)) texts;
     attention_mask :=
       map (fun t => pad_left n 0 (map (fun _ => 1%Z) (tokens t))) texts;
     token_type_ids := map (fun t => pad_left n 0 (segments t)) texts |}.

(** A loss over the positions that carry a label; none gives NaN. *)
Definition loss (labels : itensor) : ftensor :=
  let kept := filter (fun z => negb (Z.eqb z (-100))) (concat labels) in
  match kept with
  | [] => [S754_nan]
  | _ => [float_of_int (Z.of_nat (length kept))]
  end.

Definition digit (c : ascii) : option Z :=
  let n := nat_of_ascii c in
  if andb (Nat.leb 48 n) (Nat.leb n 57) then Some (Z.of_nat (n - 48)) else None.

Fixpoint digits (acc : Z) (s : string) : option Z :=
  match s with
  | EmptyString => Some acc
  | String c r =>
      match digit c with
      | Some d => digits (10 * acc + d) r
      | None => None
      end
  end.

Definition parse (s : string) : option float :=
  match s with
  | EmptyString => None
  | _ => option_map float_of_int (digits 0 s)
  end.

Definition to_float (x : number) : float :=
  match x with
  | Int z => float_of_int z
  | Float f => f
  end.

Definition finite (x : float) : bool := negb (orb (Py.isnan x) (Py.isinf x)).

Definition mae (y_true y_pred : list number) : result float :=
  let a := map to_float y_true in
  let b := map to_float y_pred in
  if negb (Nat.eqb (length a) (length b)) then
    Raise (ValueError "Found input variables with inconsistent numbers of samples")
  else if Nat.eqb (length a) 0 then
    Raise (ValueError "Found array with 0 sample(s)")
  else if negb (forallb finite (a ++ b)) then
    Raise (ValueError "Input contains NaN or infinity")
  else
    let errors := map (fun p => SFabs (SFsub prec emax (snd p) (fst p))) (combine a b) in
    Ok (SFdiv prec emax
          (fold_left (SFadd prec emax) errors (S754_zero false))
          (float_of_int (Z.of_nat (length a)))).

#[export] Instance libraries : Libraries :=
  {| Vocab := unit;
     BaseModel := ModelRequest;
     Model := ModelRequest * LoraConfig;
     Params := unit;
     AutoTokenizer_from_pretrained := fun _ =>
       {| vocab := tt; pad_token_id := None; eos_token_id := Some 0%Z |};
     tokenizer_call := call;
     batch_decode := fun _ ids => map decode ids;
     AutoModelForCausalLM_from_pretrained := fun req => req;
     get_peft_model := fun base cfg => (base, cfg);
     model_loss := fun _ _ _ labels => loss labels;
     model_generate := fun _ args =>
       map (fun row => row ++ encode "<1>") (g_input_ids args);
     model_parameters := fun _ => tt;
     scheduler_step := fun sch _ _ _ => sch;
     py_float := parse;
     mean_absolute_error := mae |}.

Definition kargs : HParams :=
  {| hp_cuda := "0"; lr := float_of_ratio 1 1000; lr_scheduler := VStr "cosine";
     lr_decay_min_lr := float_of_ratio 1 100000;
     lr_warmup_start_lr := float_of_ratio 1 1000000;
     weight_decay := None; max_input_length := 8; max_gen_length := 4;
     batch_size := 2 |}.

Definition fit : Trainer :=
  {| global_step := 0; current_epoch := 0; max_steps := 1000 |}.

(** The instance [MInterface(cuda='0', ...)] leaves. *)
Definition instance : MInterface := snd (construct kargs fit).

Definition batch : Batch :=
  {| input := ["a"; "bc"]; answer := ["<1>"; "<2>"] |}.

(** The instance after the validation epoch started and saw [batch]. *)
Definition validated : MInterface :=
  snd (validation_step batch 0 (snd (on_validation_epoch_start instance))).

(** The same libraries with a decoder that gives up after the first
    sequence. *)
Definition terse : Libraries :=
  {| Vocab := unit;
     BaseModel := ModelRequest;
     Model := ModelRequest * LoraConfig;
     Params := unit;
     AutoTokenizer_from_pretrained := fun _ =>
       {| vocab := tt; pad_token_id := None; eos_token_id := Some 0%Z |};
     tokenizer_call := call;
     batch_decode := fun _ ids => map decode (firstn 1 ids);
     AutoModelForCausalLM_from_pretrained := fun req => req;
     get_peft_model := fun base cfg => (base, cfg);
     model_loss := fun _ _ _ labels => loss labels;
     model_generate := fun _ args =>
       map (fun row => row ++ encode "<1>") (g_input_ids args);
     model_parameters := fun _ => tt;
     scheduler_step := fun sch _ _ _ => sch;
     py_float := parse;
     mean_absolute_error := mae |}.

End Example.

(** ** Notions the properties are stated with *)

(** The element at row [i], column [j]. *)
Definition at2 {A} (t : list (list A)) (i j : nat) : option A :=
  match nth_error t i with
  | Some row => nth_error row j
  | None => None
  end.

(** Two tensors of one shape. *)
Definition same_shape {A B} (a : list (list A)) (b : list (list B)) : Prop :=
  Forall2 (fun x y => length x = length y) a b.

(** The label at a position with token [x] and token type [t]. *)
Definition label_of (pad x t : Z) : Z :=
  if orb (Z.eqb x pad) (Z.eqb t 0) then (-100)%Z else x.

Definition nan_or_inf (x : float) : Prop :=
  x = S754_nan \/ exists sign, x = S754_infinity sign.

(** The last and the first group the pattern finds in a text. *)
Definition last_group (text : string) : option string :=
  match Re.findall text with
  | [] => None
  | g :: gs => Some (last gs g)
  end.

Definition first_group (text : string) : option string :=
  hd_error (Re.findall text).

Section Vocabulary.

Context {L : Libraries}.

(** How often a method was entered in a history. *)
Definition calls (m : method) (t : list event) : nat :=
  length (filter (fun e => match e with
                           | Enter m' => method_eqb m m'
                           | _ => false
                           end) t).

(** A method body that leaves the number of [load_llm] calls as it is. *)
Definition quiet {A} (c : M A) : Prop :=
  forall s, calls m_load_llm (trace (snd (c s))) = calls m_load_llm (trace s).

(** One turn of the epoch-end loop, in the words of the description: the
    prediction is the last group of the generated text, as a float or 0;
    the reference is the first group of the label, as a float. *)
Definition extracted (predict label : string) : result (number * number) :=
  match last_group predict, first_group label with
  | Some g, Some h =>
      match py_float h with
      | Some v =>
          Ok (match py_float g with Some p => Float p | None => Int 0 end,
              Float v)
      | None => Raise (ValueError "could not convert string to float")
      end
  | _, _ => Raise IndexError
  end.

(** All turns: the pairs of (prediction, reference). *)
Fixpoint extracted_all (pairs : list (string * string))
  : result (list (number * number)) :=
  match pairs with
  | [] => Ok []
  | (predict, label) :: rest =>
      (x <- extracted predict label ;;
       xs <- extracted_all rest ;;
       Ok (x :: xs))%res
  end.

(** [f] of the instance, an attribute or a count over its history, is after
    the method what it was before. *)
Definition keeps {A B} (f : MInterface -> B) (c : M A) : Prop :=
  forall s, f (snd (c s)) = f s.

(** The instance has its tokenizer and its model. *)
Definition ready (s : MInterface) : Prop :=
  exists tok m, tokenizer s = Some tok /\ model s = Some m.

(** The three lists of a content have one length. *)
Definition aligned (c : Content) : Prop :=
  length (c_input c) = length (generated_text c)
  /\ length (label c) = length (generated_text c).

(** The prompts [generate] tokenizes and the arguments it hands to
    [model.generate]. *)
Definition prompts (batch : Batch) : list text_input :=
  map (fun p => Single (fst p)) (combine (input batch) (answer batch)).

Definition generate_args (tok : Tokenizer Vocab) (hp : HParams) (batch : Batch)
    (p : GenerateParams) : GenerateArgs :=
  let enc := tokenizer_call tok (prompts batch) (max_input_length hp) in
  {| g_input_ids := input_ids enc;
     g_attention_mask := attention_mask enc;
     g_temperature := temperature p;
     g_do_sample := do_sample p;
     g_num_beams := num_beams p;
     g_max_new_tokens := max_gen_length hp;
     g_min_new_tokens := min_gen_length p;
     g_pad_token_id := pad_token_id tok;
     g_repetition_penalty := repetition_penalty p;
     g_length_penalty := length_penalty p;
     g_num_return_sequences := num_return_sequences p;
     g_output_scores := true;
     g_return_dict_in_generate := true;
     g_return_legacy_cache := true |}.

(** The [n] entries from position [b] on that a step stores. *)
Definition taken (texts : list string) (b n : nat) : list string :=
  firstn n (skipn b texts).

(** A content with more entries at the end of its lists. *)
Definition extended (c : Content) (inputs texts labels : list string) : Content :=
  {| c_input := c_input c ++ inputs;
     generated_text := generated_text c ++ texts;
     label := label c ++ labels |}.

(** Everything of an instance but its history. *)
Definition attributes (s : MInterface) :=
  (hparams s, trainer s, cuda s, tokenizer s, model s, scheduler s,
   val_content s, test_content s).

(** What the construction assigns. *)
Definition assigned_once (s : MInterface) :=
  (hparams s, cuda s, tokenizer s, model s).

(** The trainer moves on between two calls. *)
Definition set_trainer (tr : Trainer) (s : MInterface) : MInterface :=
  {| hparams := hparams s; trainer := tr; cuda := cuda s;
     tokenizer := tokenizer s; model := model s; scheduler := scheduler s;
     val_content := val_content s; test_content := test_content s;
     trace := trace s |}.

(** The instance a method leaves when it returns; an exception ends the
    run. *)
Definition after {A} (c : M A) (s : MInterface) : option MInterface :=
  match c s with
  | (Ok _, s') => Some s'
  | (Raise _, _) => None
  end.

(** The instances of a run: the construction, then any calls of the
    methods that returned. *)
Inductive reachable (kargs : HParams) (tr : Trainer) : MInterface -> Prop :=
| reach_construct s :
    construct kargs tr = (Ok tt, s) -> reachable kargs tr s
| reach_trainer s tr' :
    reachable kargs tr s -> reachable kargs tr (set_trainer tr' s)
| reach_configure_optimizers s s' :
    reachable kargs tr s -> after configure_optimizers s = Some s' ->
    reachable kargs tr s'
| reach_training_step s s' batch i :
    reachable kargs tr s -> after (training_step batch i) s = Some s' ->
    reachable kargs tr s'
| reach_forward s s' batch :
    reachable kargs tr s -> after (forward batch) s = Some s' ->
    reachable kargs tr s'
| reach_generate s s' batch p :
    reachable kargs tr s -> after (generate batch p) s = Some s' ->
    reachable kargs tr s'
| reach_on_validation_epoch_start s s' :
    reachable kargs tr s -> after on_validation_epoch_start s = Some s' ->
    reachable kargs tr s'
| reach_validation_step s s' batch i :
    reachable kargs tr s -> after (validation_step batch i) s = Some s' ->
    reachable kargs tr s'
| reach_on_validation_epoch_end s s' :
    reachable kargs tr s -> after on_validation_epoch_end s = Some s' ->
    reachable kargs tr s'
| reach_on_test_epoch_start s s' :
    reachable kargs tr s -> after on_test_epoch_start s = Some s' ->
    reachable kargs tr s'
| reach_test_step s s' batch i :
    reachable kargs tr s -> after (test_step batch i) s = Some s' ->
    reachable kargs tr s'
| reach_on_test_epoch_end s s' :
    reachable kargs tr s -> after on_test_epoch_end s = Some s' ->
    reachable kargs tr s'.

Definition content_aligned (o : option Content) : Prop :=
  match o with
  | Some c => aligned c
  | None => True
  end.

(** [float(x)] of an entry of the metric lists. *)
Definition as_float (x : number) : float :=
  match x with
  | Int z => float_of_int z
  | Float f => f
  end.

Definition is_finite (x : float) : bool :=
  negb (orb (Py.isnan x) (Py.isinf x)).

(** [|t - p|] in binary64. *)
Definition absolute_error (t p : number) : float :=
  SFabs (SFsub prec emax (as_float t) (as_float p)).

(** Modelled from the spec: [sklearn.metrics.mean_absolute_error] is a
    library outside the repository.  This is the mean absolute error of
    the glossary, the sum over [i] of [|y_true[i] - y_pre[i]|] divided by
    the number [n] of entries, in binary64 arithmetic with the errors
    added from left to right. *)
Definition mean_absolute_error_of (y_true y_pre : list number) : float :=
  SFdiv prec emax
    (fold_left (SFadd prec emax)
       (map (fun p => absolute_error (fst p) (snd p)) (combine y_true y_pre))
       (S754_zero false))
    (float_of_int (Z.of_nat (length y_true))).

(** Modelled from the spec: what is taken of the library's
    [mean_absolute_error]: a value it returns is the mean absolute error
    of its two lists, and it returns on non-empty lists of one length
    whose entries are finite. *)
Definition computes_mean_absolute_error : Prop :=
  (forall y_true y_pre v,
      mean_absolute_error y_true y_pre = Ok v ->
      v = mean_absolute_error_of y_true y_pre)
  /\ (forall y_true y_pre,
         y_true <> [] -> length y_true = length y_pre ->
         Forall (fun y => is_finite (as_float y) = true) (y_true ++ y_pre) ->
         exists v, mean_absolute_error y_true y_pre = Ok v).

End Vocabulary.

(** * Properties *)

Unset Implicit Arguments.

(** ** The regular expression *)

Module ReFacts.

Import Re.

(** The pattern on a few texts. *)
Example findall_two_answers :
  findall "price <1.5>, then <a<b> and <2>" = ["1.5"; "a<b"; "2"].
Proof. reflexivity. Qed.

Example findall_across_lines :
  findall ("<1" ++ String newline "> <2>") = ["2"].
Proof. reflexivity. Qed.

Example findall_nested : findall "<<>>" = ["<"].
Proof. reflexivity. Qed.

(** [findall], one position at a time. *)
Lemma findall_String (c : ascii) (r : string) :
  findall (String c r) =
  if Ascii.eqb c lt_sign then
    match lazy_group r with
    | Some (g, rest) => g :: findall rest
    | None => findall r
    end
  else findall r.
Proof.
  cbn [findall].
  destruct (Ascii.eqb c lt_sign); [|reflexivity].
  match goal with
  | |- ?group _ r = _ =>
      enough (forall t acc,
                 group acc t =
                 match lazy_group t with
                 | Some (g, rest) => acc g :: findall rest
                 | None => findall r
                 end) as H by apply H
  end.
  induction t as [|d t IH]; intro acc; cbn [lazy_group]; [reflexivity|].
  destruct (Ascii.eqb d gt_sign); [reflexivity|].
  destruct (Ascii.eqb d newline); [reflexivity|].
  rewrite IH. destruct (lazy_group t) as [[g rest]|]; reflexivity.
Qed.

(** The lazy group ends at the first [>] and holds neither [>] nor a line
    feed. *)
Lemma lazy_group_Some (s g rest : string) :
  lazy_group s = Some (g, rest) <->
  s = (g ++ String gt_sign rest)%string /\ ~ occurs gt_sign g /\ ~ occurs newline g.
Proof.
  revert g. induction s as [|c s IH]; intro g; cbn [lazy_group].
  - split; [discriminate|]. intros [E _]. destruct g; discriminate.
  - destruct (Ascii.eqb_spec c gt_sign) as [->|Hgt].
    + split.
      * intro E. injection E as <- <-. cbn. tauto.
      * intros (E & Hg & _). destruct g as [|d g]; cbn in E.
        -- injection E as ->. reflexivity.
        -- injection E as <- _. cbn in Hg. tauto.
    + destruct (Ascii.eqb_spec c newline) as [->|Hnl].
      * split; [discriminate|]. intros (E & _ & Hn).
        destruct g as [|d g]; cbn in E; injection E as E1 E2.
        -- congruence.
        -- subst d. cbn in Hn. tauto.
      * destruct (lazy_group s) as [[g' rest']|] eqn:Hs.
        -- split.
           ++ intro E. injection E as <- <-.
              destruct (proj1 (IH g') eq_refl) as (-> & H1 & H2).
              cbn. split; [reflexivity|]. split; intros [?|?]; congruence || tauto.
           ++ intros (E & H1 & H2). destruct g as [|d g]; cbn in E; injection E as E1 E2.
              ** congruence.
              ** subst d. cbn in H1, H2.
                 assert (Some (g', rest') = Some (g, rest)) as E by (apply IH; tauto).
                 injection E as -> ->. reflexivity.
        -- split; [discriminate|]. intros (E & H1 & H2).
           destruct g as [|d g]; cbn in E; injection E as E1 E2.
           ++ congruence.
           ++ cbn in H1, H2.
              assert (None = Some (g, rest)) as E by (apply IH; tauto).
              discriminate.
Qed.

(** A line-free text up to a [>] always gives a group. *)
Lemma lazy_group_in_line (g post : string) :
  ~ occurs newline g ->
  exists g' rest, lazy_group (g ++ String gt_sign post) = Some (g', rest).
Proof.
  induction g as [|c g IH]; intro Hn; cbn [append lazy_group].
  - rewrite Ascii.eqb_refl. eauto.
  - destruct (Ascii.eqb c gt_sign); [eauto|].
    destruct (Ascii.eqb_spec c newline) as [->|_].
    + cbn in Hn. tauto.
    + destruct IH as (g' & rest & ->); [cbn in Hn; tauto|]. eauto.
Qed.

Lemma findall_in_line (s : string) :
  bracketed_in_line s -> findall s <> [].
Proof.
  intros (pre & g & post & -> & Hn).
  induction pre as [|c pre IH]; cbn [append]; rewrite findall_String.
  - rewrite Ascii.eqb_refl.
    destruct (@lazy_group_in_line g post Hn) as (g' & rest & ->). discriminate.
  - destruct (Ascii.eqb c lt_sign); [|exact IH].
    destruct (lazy_group _) as [[g' rest]|]; [discriminate|exact IH].
Qed.

Lemma in_line_findall (s : string) :
  findall s <> [] -> bracketed_in_line s.
Proof.
  induction s as [|c s IH]; [intro H; now elim H|].
  rewrite findall_String.
  assert (bracketed_in_line s -> bracketed_in_line (String c s)) as Hstep.
  { intros (pre & g & post & -> & Hn). exists (String c pre), g, post. auto. }
  destruct (Ascii.eqb_spec c lt_sign) as [->|_]; [|auto].
  destruct (lazy_group s) as [[g rest]|] eqn:Hg; [|auto].
  intros _. apply lazy_group_Some in Hg as (-> & _ & Hn).
  exists EmptyString, g, rest. auto.
Qed.

(** The pattern finds something exactly in the texts that hold a [<...>]
    within one line. *)
Lemma findall_nonempty_iff (s : string) :
  findall s <> [] <-> bracketed_in_line s.
Proof. split; [apply in_line_findall | apply findall_in_line]. Qed.

Lemma findall_empty_iff (s : string) :
  findall s = [] <-> ~ bracketed_in_line s.
Proof.
  rewrite <- findall_nonempty_iff.
  destruct (findall s); split; try congruence; intro H; now elim H.
Qed.

Lemma lazy_group_newline (b1 b2 rest : string) :
  ~ occurs gt_sign b1 ->
  lazy_group ((b1 ++ String newline b2) ++ rest) = None.
Proof.
  induction b1 as [|c b1 IH]; intro H; cbn [append lazy_group].
  - reflexivity.
  - cbn in H. destruct (Ascii.eqb_spec c gt_sign) as [->|_]; [tauto|].
    destruct (Ascii.eqb c newline); [reflexivity|].
    rewrite IH by tauto. reflexivity.
Qed.

(** X16: the leftmost match wins and the search goes on behind it: when no
    match starts in [pre] and [g] holds neither [>] nor a line feed, the
    first group found in [pre<g>post] is [g] and the others are those of
    [post]. *)
Lemma findall_leftmost (pre g post : string) :
  no_start pre -> ~ occurs gt_sign g -> ~ occurs newline g ->
  findall (pre ++ String lt_sign (g ++ String gt_sign post)) = g :: findall post.
Proof.
  intros Hpre Hgt Hnl.
  induction pre as [|c pre IH]; cbn [append]; rewrite findall_String.
  - rewrite Ascii.eqb_refl.
    now rewrite (proj2 (lazy_group_Some (g ++ String gt_sign post) g post)).
  - destruct Hpre as (Hc & Hpre).
    destruct (Ascii.eqb_spec c lt_sign) as [E|_]; [|auto].
    destruct (Hc E) as (b1 & b2 & -> & Hb1).
    now rewrite lazy_group_newline; auto.
Qed.

Lemma lazy_group_None_stops (p g post : string) :
  ~ occurs newline g ->
  lazy_group (p ++ String lt_sign (g ++ String gt_sign post)) = None ->
  stops_at_newline p.
Proof.
  intro Hnl. induction p as [|d p IH]; cbn [append lazy_group].
  - change (Ascii.eqb lt_sign gt_sign) with false.
    change (Ascii.eqb lt_sign newline) with false. cbv iota.
    destruct (lazy_group_in_line g post Hnl) as (g' & rest & ->). discriminate.
  - destruct (Ascii.eqb_spec d gt_sign) as [->|Hd]; [discriminate|].
    destruct (Ascii.eqb_spec d newline) as [->|_].
    + intros _. exists EmptyString, p. cbn. tauto.
    + destruct (lazy_group _) as [[g' rest]|] eqn:E; [discriminate|].
      intros _. destruct (IH eq_refl) as (b1 & b2 & -> & Hb1).
      exists (String d b1), b2. cbn. split; [reflexivity|]. intros [?|?]; congruence || tauto.
Qed.

(** The first group found is the leftmost lazy match. *)
Lemma findall_cons_inv (s g : string) (gs : list string) :
  findall s = g :: gs ->
  exists pre post,
    s = (pre ++ String lt_sign (g ++ String gt_sign post))%string
    /\ no_start pre /\ ~ occurs gt_sign g /\ ~ occurs newline g
    /\ gs = findall post.
Proof.
  induction s as [|c s IH]; [discriminate|].
  rewrite findall_String.
  assert (findall s = g :: gs -> (c = lt_sign -> lazy_group s = None) ->
          exists pre post,
            String c s = (pre ++ String lt_sign (g ++ String gt_sign post))%string
            /\ no_start pre /\ ~ occurs gt_sign g /\ ~ occurs newline g
            /\ gs = findall post) as Hstep.
  { intros Hs Hc. destruct (IH Hs) as (pre & post & -> & Hpre & Hgt & Hnl & ->).
    exists (String c pre), post. repeat split; auto.
    intro E. eapply lazy_group_None_stops; eauto. }
  destruct (Ascii.eqb_spec c lt_sign) as [->|Hc].
  - destruct (lazy_group s) as [[g' rest]|] eqn:Hg.
    + intro E. injection E as -> <-.
      apply lazy_group_Some in Hg as (-> & Hgt & Hnl).
      exists EmptyString, rest. cbn. auto.
    + intro Hs. apply Hstep; auto.
  - intro Hs. apply Hstep; auto. intro E. contradiction.
Qed.

End ReFacts.

(** ** The label mask of [forward] *)

Section Labels.

Lemma expand_same {A} (n : nat) (l : list A) :
  length l = n -> expand n l = Ok l.
Proof. intro E. unfold expand. now rewrite E, Nat.eqb_refl. Qed.

Lemma fill_rows_same (v : Z) (t : itensor) (mask : btensor) :
  same_shape t mask ->
  fill_rows v t mask =
  Ok (map (fun p => fill_row v (fst p) (snd p)) (combine t mask)).
Proof.
  induction 1 as [|row mrow t mask E _ IH]; [reflexivity|].
  cbn [fill_rows combine map fst snd].
  rewrite (expand_same _ _ (eq_sym E)). cbn [Py.bind]. now rewrite IH.
Qed.

Lemma same_shape_length {A B} (a : list (list A)) (b : list (list B)) :
  same_shape a b -> length a = length b.
Proof. induction 1; cbn; congruence. Qed.

Lemma masked_fill_same (v : Z) (t : itensor) (mask : btensor) :
  same_shape t mask ->
  masked_fill t mask v =
  Ok (map (fun p => fill_row v (fst p) (snd p)) (combine t mask)).
Proof.
  intro H. unfold masked_fill.
  rewrite (expand_same _ _ (eq_sym (same_shape_length _ _ H))). cbn [Py.bind].
  now apply fill_rows_same.
Qed.

Lemma nth_error_zip {A B C} (f : A * B -> C) (a : list A) (b : list B) (i : nat) :
  nth_error (map f (combine a b)) i =
  match nth_error a i, nth_error b i with
  | Some x, Some y => Some (f (x, y))
  | _, _ => None
  end.
Proof.
  revert b i. induction a as [|x a IH]; intros [|y b] [|i]; cbn; try reflexivity.
  - now destruct (nth_error a i).
  - apply IH.
Qed.

Lemma at2_fill (v : Z) (t : itensor) (mask : btensor) (i j : nat) :
  at2 (map (fun p => fill_row v (fst p) (snd p)) (combine t mask)) i j =
  match at2 t i j, at2 mask i j with
  | Some x, Some b => Some (if b then v else x)
  | _, _ => None
  end.
Proof.
  unfold at2. rewrite nth_error_zip.
  destruct (nth_error t i) as [row|]; [|reflexivity].
  destruct (nth_error mask i) as [mrow|]; cbn [fst snd].
  - unfold fill_row. rewrite nth_error_zip.
    destruct (nth_error row j), (nth_error mrow j); reflexivity.
  - now destruct (nth_error row j).
Qed.

Lemma at2_eq_scalar (t : itensor) (v : Z) (i j : nat) :
  at2 (eq_scalar t v) i j = option_map (fun x => Z.eqb x v) (at2 t i j).
Proof.
  unfold at2, eq_scalar. rewrite nth_error_map.
  destruct (nth_error t i) as [row|]; cbn; [|reflexivity].
  now rewrite nth_error_map.
Qed.

Lemma same_shape_eq_scalar (t : itensor) (v : Z) : same_shape t (eq_scalar t v).
Proof.
  induction t as [|row t IH]; constructor; [|exact IH].
  now rewrite length_map.
Qed.

Lemma same_shape_fill {B} (v : Z) (t : itensor) (mask : btensor) (u : list (list B)) :
  same_shape t mask -> same_shape t u ->
  same_shape (map (fun p => fill_row v (fst p) (snd p)) (combine t mask)) u.
Proof.
  intros H. revert u. induction H as [|row mrow t mask E _ IH]; intros u Hu;
    inversion Hu; subst; constructor.
  - cbn [fst snd]. unfold fill_row. rewrite length_map, length_combine, <- E.
    rewrite Nat.min_id. assumption.
  - now apply IH.
Qed.

Lemma same_shape_trans {A B C} (a : list (list A)) (b : list (list B))
    (c : list (list C)) :
  same_shape a b -> same_shape b c -> same_shape a c.
Proof.
  intro H. revert c.
  induction H as [|x y a b E _ IH]; intros c Hc; inversion Hc; subst; constructor.
  - congruence.
  - now apply IH.
Qed.

Lemma same_shape_sym {A B} (a : list (list A)) (b : list (list B)) :
  same_shape a b -> same_shape b a.
Proof. induction 1 as [|x y a b E _ IH]; constructor; [now symmetry | exact IH]. Qed.

Lemma same_shape_refl {A} (a : list (list A)) : same_shape a a.
Proof. induction a as [|x a IH]; constructor; [reflexivity | exact IH]. Qed.

(** The two [masked_fill]s on tensors of one shape. *)
Lemma target_ids_of_same (pad : Z) (ids types : itensor) :
  same_shape ids types ->
  exists labels,
    target_ids_of (Some pad) ids types = Ok labels
    /\ same_shape labels ids
    /\ forall i j x t,
        at2 ids i j = Some x -> at2 types i j = Some t ->
        at2 labels i j = Some (label_of pad x t).
Proof.
  intro H. unfold target_ids_of.
  rewrite (masked_fill_same _ _ _ (same_shape_eq_scalar ids pad)). cbn [Py.bind].
  set (t1 := map _ (combine ids (eq_scalar ids pad))).
  assert (same_shape t1 ids) as H1
    by (apply same_shape_fill; [apply same_shape_eq_scalar | apply same_shape_refl]).
  assert (same_shape t1 (eq_scalar types 0)) as H2.
  { eapply same_shape_trans; [exact H1|].
    eapply same_shape_trans; [exact H|]. apply same_shape_eq_scalar. }
  rewrite (masked_fill_same _ _ _ H2).
  eexists. split; [reflexivity|]. split.
  - apply same_shape_fill; assumption.
  - intros i j x t Hx Ht. rewrite at2_fill. unfold t1.
    rewrite at2_fill, !at2_eq_scalar, Hx, Ht. cbn [option_map].
    unfold label_of. destruct (Z.eqb x pad), (Z.eqb t 0); reflexivity.
Qed.

End Labels.

Section Forward.

Context {L : Libraries}.

Lemma existsb_bit_or (t : ftensor) :
  has_nan_or_inf t = existsb (fun x => orb (Py.isnan x) (Py.isinf x)) t.
Proof.
  unfold has_nan_or_inf, Torch.any, Torch.bit_or, Torch.isnan, Torch.isinf.
  induction t as [|x t IH]; [reflexivity|].
  cbn [map combine existsb fst snd]. now rewrite IH.
Qed.

Lemma has_nan_or_inf_iff (t : ftensor) :
  has_nan_or_inf t = true <-> Exists nan_or_inf t.
Proof.
  rewrite existsb_bit_or, existsb_exists, Exists_exists.
  split; intros (x & Hin & Hx); exists x; (split; [exact Hin|]).
  - destruct x; cbn in Hx; try discriminate; unfold nan_or_inf; eauto.
  - destruct Hx as [->|[sign ->]]; reflexivity.
Qed.

(** [forward] up to the loss, on an instance that has its tokenizer and
    model. *)
Lemma forward_run (s : MInterface) (batch : Batch) (tok : Tokenizer Vocab)
    (m : Model) (labels : itensor) :
  tokenizer s = Some tok -> model s = Some m ->
  let enc := tokenizer_call tok
               (map (fun p => Pair (fst p) (snd p))
                    (combine (input batch) (answer batch)))
               (max_input_length (hparams s)) in
  target_ids_of (pad_token_id tok) (input_ids enc) (token_type_ids enc) = Ok labels ->
  let run := RunModel (input_ids enc) (attention_mask enc) labels in
  let lm_loss := model_loss m (input_ids enc) (attention_mask enc) labels in
  forward batch s =
  if has_nan_or_inf lm_loss then
    (Raise SystemExit,
     record (Print "!!!!") (record run (record (Enter m_forward) s)))
  else (Ok lm_loss, record run (record (Enter m_forward) s)).
Proof.
  intros Htok Hm enc Hl run lm_loss.
  unfold forward, mbind, emit, modify, attr, gets, lift, print, emit, modify.
  cbn. rewrite Htok. cbn. rewrite Hm. cbn. fold enc. rewrite Hl. cbn. fold lm_loss.
  destruct (has_nan_or_inf lm_loss); reflexivity.
Qed.

End Forward.

(** C1: in [forward], the label tensor handed to the model has the shape
    of [input_ids]; it holds -100 wherever the token is the padding token
    or the token type is 0, and the token id everywhere else. *)
Theorem forward_labels {L : Libraries} (s : MInterface) (batch : Batch)
    (tok : Tokenizer Vocab) (m : Model) (pad : Z) :
  tokenizer s = Some tok -> model s = Some m -> pad_token_id tok = Some pad ->
  let enc := tokenizer_call tok
               (map (fun p => Pair (fst p) (snd p))
                    (combine (input batch) (answer batch)))
               (max_input_length (hparams s)) in
  same_shape (input_ids enc) (token_type_ids enc) ->
  exists labels tail,
    trace (snd (forward batch s)) =
      trace s ++ Enter m_forward
              :: RunModel (input_ids enc) (attention_mask enc) labels :: tail
    /\ same_shape labels (input_ids enc)
    /\ forall i j x t,
        at2 (input_ids enc) i j = Some x ->
        at2 (token_type_ids enc) i j = Some t ->
        at2 labels i j =
        Some (if orb (Z.eqb x pad) (Z.eqb t 0) then (-100)%Z else x).
Proof.
  intros Htok Hm Hpad enc Hshape.
  destruct (target_ids_of_same pad _ _ Hshape) as (labels & Hl & Hs & Hat).
  rewrite <- Hpad in Hl.
  exists labels.
  rewrite (forward_run s batch tok m labels Htok Hm Hl). fold enc.
  destruct (has_nan_or_inf _); eexists; (split; [|split; [exact Hs | exact Hat]]);
    cbn [snd record trace]; rewrite <- ?app_assoc; reflexivity.
Qed.

(** [forward] on the example batch. *)
Lemma forward_labels_witness :
  let s := Example.instance in
  let tok := {| vocab := tt; pad_token_id := Some 0%Z; eos_token_id := Some 0%Z |} in
  let enc := Example.call tok [Pair "a" "<1>"; Pair "bc" "<2>"] 8 in
  same_shape (input_ids enc) (token_type_ids enc)
  /\ exists labels tail,
      trace (snd (forward Example.batch s)) =
        trace s ++ Enter m_forward
                :: RunModel (input_ids enc) (attention_mask enc) labels :: tail
      /\ same_shape labels (input_ids enc)
      /\ forall i j x t,
          at2 (input_ids enc) i j = Some x ->
          at2 (token_type_ids enc) i j = Some t ->
          at2 labels i j =
          Some (if orb (Z.eqb x 0) (Z.eqb t 0) then (-100)%Z else x).
Proof.
  intros s tok enc.
  assert (same_shape (input_ids enc) (token_type_ids enc)) as Hshape
    by (vm_compute; repeat constructor).
  split; [exact Hshape|].
  exact (forward_labels s Example.batch tok _ 0%Z eq_refl eq_refl eq_refl Hshape).
Defined.

(** C2: [has_nan_or_inf] answers [True] exactly on the tensors with a NaN
    or infinite element; [forward] leaves through [sys.exit()] exactly when
    the loss the model computed is such a tensor, and returns that loss
    otherwise. *)
Theorem forward_exits_iff_nan_or_inf {L : Libraries} (s : MInterface)
    (batch : Batch) (tok : Tokenizer Vocab) (m : Model) (labels : itensor) :
  tokenizer s = Some tok -> model s = Some m ->
  let enc := tokenizer_call tok
               (map (fun p => Pair (fst p) (snd p))
                    (combine (input batch) (answer batch)))
               (max_input_length (hparams s)) in
  target_ids_of (pad_token_id tok) (input_ids enc) (token_type_ids enc) = Ok labels ->
  let lm_loss := model_loss m (input_ids enc) (attention_mask enc) labels in
  (forall tensor, has_nan_or_inf tensor = true <-> Exists nan_or_inf tensor)
  /\ (fst (forward batch s) = Raise SystemExit <-> Exists nan_or_inf lm_loss)
  /\ (~ Exists nan_or_inf lm_loss -> fst (forward batch s) = Ok lm_loss).
Proof.
  intros Htok Hm enc Hl lm_loss.
  split; [exact has_nan_or_inf_iff|].
  rewrite (forward_run s batch tok m labels Htok Hm Hl). fold enc lm_loss.
  rewrite <- has_nan_or_inf_iff.
  destruct (has_nan_or_inf lm_loss); cbn [fst]; repeat split;
    congruence || discriminate.
Qed.

(** A batch whose answers are empty leaves no label, the example loss is
    NaN and [forward] exits. *)
Lemma forward_exits_witness :
  let s := Example.instance in
  let batch := {| input := ["a"]; answer := [""] |} in
  let tok := {| vocab := tt; pad_token_id := Some 0%Z; eos_token_id := Some 0%Z |} in
  let labels := [[-100; -100; -100; -100; -100; -100; -100; -100]]%Z in
  target_ids_of (pad_token_id tok)
    (input_ids (Example.call tok [Pair "a" ""] 8))
    (token_type_ids (Example.call tok [Pair "a" ""] 8)) = Ok labels
  /\ Exists nan_or_inf (Example.loss labels)
  /\ fst (forward batch s) = Raise SystemExit.
Proof.
  intros s batch tok labels.
  assert (Exists nan_or_inf (Example.loss labels)) as Hnan
    by (constructor; left; reflexivity).
  split; [reflexivity|]. split; [exact Hnan|].
  exact (proj2 (proj1 (proj2
           (forward_exits_iff_nan_or_inf s batch tok _ labels
              eq_refl eq_refl eq_refl))) Hnan).
Defined.

(** ** [configure_optimizers] and [load_llm] *)

(** [//] rounds down: the trainer's default [max_steps = -1] gives
    [warmup_steps = -1]. *)
Example warmup_steps_floor :
  ((-1) / 20 = -1)%Z /\ str_of_int (-1 / 20) = "-1" /\ (1010 / 20 = 50)%Z.
Proof. repeat split. Qed.

(** C5: [configure_optimizers] always builds the AdamW optimizer over the
    model parameters with learning rate [hparams.lr]; with
    [lr_scheduler = None] it returns it and builds no scheduler; with
    ['cosine'] it builds the warm-up cosine scheduler with
    [warmup_steps = max_steps // 20]; any other value raises [ValueError]. *)
Theorem configure_optimizers_cases {L : Libraries} (s : MInterface) (m : Model) :
  model s = Some m ->
  let hp := hparams s in
  let groups :=
    [ {| params := model_parameters m; pg_lr := lr hp;
         pg_weight_decay := match weight_decay hp with
                            | Some w => Float w
                            | None => Int 0
                            end |} ] in
  let max_step := max_steps (trainer s) in
  let sch := {| optimizer := AdamW groups;
                sch_max_step := max_step;
                sch_min_lr := lr_decay_min_lr hp;
                sch_init_lr := lr hp;
                sch_warmup_steps := (max_step / 20)%Z;
                sch_warmup_start_lr := lr_warmup_start_lr hp |} in
  let out := configure_optimizers s in
  let prints := [Print ("max_step: " ++ str_of_int max_step);
                 Print ("warmup_steps: " ++ str_of_int (max_step / 20))] in
  (exists tail,
      trace (snd out) =
      trace s ++ Enter m_configure_optimizers :: NewAdamW groups :: tail)
  /\ (lr_scheduler hp = VNone ->
      fst out = Ok (AdamW groups)
      /\ scheduler (snd out) = scheduler s
      /\ trace (snd out) =
         trace s ++ [Enter m_configure_optimizers; NewAdamW groups])
  /\ (lr_scheduler hp = VStr "cosine" ->
      fst out = Ok (AdamW groups)
      /\ scheduler (snd out) = Some (Some sch)
      /\ trace (snd out) =
         trace s ++ [Enter m_configure_optimizers; NewAdamW groups]
                 ++ prints ++ [NewScheduler sch])
  /\ (lr_scheduler hp <> VNone -> lr_scheduler hp <> VStr "cosine" ->
      fst out = Raise (ValueError "Invalid lr_scheduler type!")
      /\ scheduler (snd out) = Some None
      /\ trace (snd out) =
         trace s ++ [Enter m_configure_optimizers; NewAdamW groups] ++ prints).
Proof.
  intros Hm hp groups max_step sch out prints.
  subst out. unfold configure_optimizers, mbind, emit, modify, attr, gets, print,
    emit, modify, ret, raise.
  cbn. rewrite Hm. cbn. fold hp groups max_step.
  destruct (lr_scheduler hp) as [|b|z|str] eqn:E; cbn;
    try (destruct (String.eqb_spec str "cosine") as [->|Hne]; cbn);
    rewrite <- ?app_assoc; cbn [app];
    (split; [eexists; reflexivity|]);
    repeat split; intros; try discriminate; try congruence; try reflexivity.
Qed.

(** The example instance asks for the cosine schedule over 1000 steps. *)
Lemma configure_optimizers_witness :
  fst (configure_optimizers Example.instance) =
    Ok (AdamW [ {| params := tt; pg_lr := lr Example.kargs;
                   pg_weight_decay := Int 0 |} ])
  /\ option_map (option_map (@sch_warmup_steps unit))
       (scheduler (snd (configure_optimizers Example.instance)))
     = Some (Some 50%Z).
Proof.
  pose proof (configure_optimizers_cases Example.instance _ eq_refl)
    as (_ & _ & Hcos & _).
  destruct (Hcos eq_refl) as (Hout & Hsch & _).
  split; [exact Hout|]. cbv zeta in Hsch. rewrite Hsch. reflexivity.
Defined.

(** C6: [load_llm] fetches the tokenizer and the causal model, the model
    with the 4-bit NF4 configuration (double quantization, float16
    compute type), wraps it with the LoRA configuration (rank 16, alpha
    32, dropout 0.05, the seven projection modules) through
    [get_peft_model] and stores the result in [self.model]. *)
Theorem load_llm_quantized_lora {L : Libraries} (s : MInterface) :
  let model_id := "meta-llama/Llama-3.2-1B-Instruct" in
  let treq := {| tr_model_id := model_id; tr_token := "your_huggingface_token";
                 tr_cache_dir := "/home/haohao/.huggingface";
                 tr_padding_side := "left" |} in
  let bnb := {| load_in_4bit := true; bnb_4bit_quant_type := "nf4";
                bnb_4bit_compute_dtype := float16;
                bnb_4bit_use_double_quant := true |} in
  let mreq := {| mr_model_id := model_id; mr_token := "your_huggingface_token";
                 quantization_config := bnb; device_map := cuda s;
                 mr_cache_dir := "/home/haohao/.huggingface";
                 attn_implementation := "eager" |} in
  let lora := {| r := 16; lora_alpha := 32;
                 lora_dropout := float_of_ratio 5 100;
                 bias := "none"; task_type := "CAUSAL_LM";
                 target_modules :=
                   ["up_proj"; "down_proj"; "gate_proj"; "k_proj"; "q_proj";
                    "v_proj"; "o_proj"] |} in
  let base := AutoModelForCausalLM_from_pretrained mreq in
  let fetched := AutoTokenizer_from_pretrained treq in
  let s' := snd (load_llm s) in
  fst (load_llm s) = Ok tt
  /\ model s' = Some (get_peft_model base lora)
  /\ tokenizer s' =
     Some (match pad_token_id fetched with
           | None => set_pad_token_id fetched (eos_token_id fetched)
           | Some _ => fetched
           end)
  /\ trace s' =
     trace s ++ [Enter m_load_llm; LoadTokenizer treq; LoadModel mreq;
                 WrapPeft base lora; Print "Loading LLAMA Done"]
  /\ float_of_ratio 5 100 = S754_finite false 7205759403792794 (-57).
Proof.
  intros model_id treq bnb mreq lora base fetched s'. subst s'.
  unfold load_llm, mbind, emit, modify, attr, gets, print, emit, modify, ret.
  cbn. fold model_id treq. fold fetched.
  destruct (pad_token_id fetched); cbn; rewrite <- ?app_assoc;
    repeat split; reflexivity.
Qed.

(** ** Who calls [load_llm] *)

Section Calls.

Context {L : Libraries}.

Lemma calls_app (m : method) (t u : list event) :
  calls m (t ++ u) = calls m t + calls m u.
Proof. unfold calls. now rewrite filter_app, length_app. Qed.

Lemma quiet_ret {A} (a : A) : quiet (ret a).
Proof. intro s. reflexivity. Qed.

Lemma quiet_raise {A} (e : exn) : quiet (@raise L A e).
Proof. intro s. reflexivity. Qed.

Lemma quiet_lift {A} (x : result A) : quiet (lift x).
Proof. intro s. reflexivity. Qed.

Lemma quiet_gets {A} (f : MInterface -> A) : quiet (gets f).
Proof. intro s. reflexivity. Qed.

Lemma quiet_attr {A} (name : string) (f : MInterface -> option A) :
  quiet (attr name f).
Proof. intro s. unfold attr. now destruct (f s). Qed.

Lemma quiet_modify (f : MInterface -> MInterface) :
  (forall s, trace (f s) = trace s) -> quiet (modify f).
Proof. intros H s. unfold modify. cbn [snd]. now rewrite H. Qed.

Lemma quiet_emit (e : event) : calls m_load_llm [e] = 0 -> quiet (emit e).
Proof.
  intros H s. unfold emit, modify. cbn [snd record trace].
  rewrite calls_app, H. apply Nat.add_0_r.
Qed.

Lemma quiet_bind {A B} (c : M A) (k : A -> M B) :
  quiet c -> (forall a, quiet (k a)) -> quiet (mbind c k).
Proof.
  intros Hc Hk s. unfold mbind. specialize (Hc s).
  destruct (c s) as [[a|e] s']; cbn [snd] in *; [|exact Hc].
  now rewrite Hk.
Qed.

Ltac quiet :=
  repeat first
    [ assumption
    | apply quiet_ret | apply quiet_raise | apply quiet_lift
    | apply quiet_gets | apply quiet_attr
    | apply quiet_emit; reflexivity
    | apply quiet_modify; solve [reflexivity | auto]
    | apply quiet_bind; [|intros ?]
    | match goal with
      | |- quiet (match ?x with _ => _ end) => destruct x
      end
    | progress cbv zeta ].

Lemma quiet_forward (batch : Batch) : quiet (forward batch).
Proof. unfold forward, print. quiet. Qed.

Lemma quiet_generate (batch : Batch) (p : GenerateParams) :
  quiet (generate batch p).
Proof. unfold generate. quiet. Qed.

Lemma quiet_training_step (batch : Batch) (i : Z) : quiet (training_step batch i).
Proof. unfold training_step, log. pose proof (quiet_forward batch). quiet. Qed.

Lemma quiet_store (name : string) (get : MInterface -> option Content)
    (set : Content -> MInterface -> MInterface) :
  (forall c s, trace (set c s) = trace s) ->
  forall texts pairs b, quiet (store name get set texts b pairs).
Proof.
  intros Hset texts pairs.
  induction pairs as [|[prompt answer] pairs IH]; intro b; cbn [store].
  - quiet.
  - specialize (IH (S b)). quiet.
Qed.

Lemma quiet_step (name : string) (get : MInterface -> option Content)
    (set : Content -> MInterface -> MInterface) (batch : Batch) (i : Z) :
  (forall c s, trace (set c s) = trace s) ->
  quiet (step name get set batch i).
Proof.
  intro Hset. unfold step.
  pose proof (quiet_generate batch default_params).
  apply quiet_bind; [assumption|]. intro texts. now apply quiet_store.
Qed.

Lemma quiet_validation_step (batch : Batch) (i : Z) :
  quiet (validation_step batch i).
Proof.
  unfold validation_step. apply quiet_bind; [quiet|]. intros _.
  now apply quiet_step.
Qed.

Lemma quiet_test_step (batch : Batch) (i : Z) : quiet (test_step batch i).
Proof.
  unfold test_step. apply quiet_bind; [quiet|]. intros _.
  now apply quiet_step.
Qed.

Lemma quiet_configure_optimizers : quiet configure_optimizers.
Proof. unfold configure_optimizers, print. quiet. Qed.

Lemma quiet_epoch_end (name : string) (get : MInterface -> option Content) :
  quiet (epoch_end name get).
Proof. unfold epoch_end, log. quiet. Qed.

Lemma construct_trace (kargs : HParams) (tr : Trainer) :
  exists rest,
    trace (snd (construct kargs tr)) = Enter m_init :: Enter m_load_llm :: rest
    /\ calls m_load_llm rest = 0.
Proof.
  unfold construct, __init__, load_llm, mbind, emit, modify, attr, gets, print,
    emit, modify, ret.
  cbn.
  destruct (pad_token_id _); cbn; eexists; split; reflexivity.
Qed.

End Calls.

(** C7: a construction of [MInterface] enters [load_llm] exactly once,
    straight from [__init__]; [training_step], [validation_step],
    [test_step], [generate] and [configure_optimizers] (and [forward] and
    the epoch-end hooks) never enter it. *)
Theorem load_llm_once {L : Libraries} :
  (forall kargs tr,
      calls m_load_llm (trace (snd (construct kargs tr))) = 1
      /\ exists rest,
          trace (snd (construct kargs tr)) = Enter m_init :: Enter m_load_llm :: rest)
  /\ (forall s batch i,
         calls m_load_llm (trace (snd (training_step batch i s)))
         = calls m_load_llm (trace s))
  /\ (forall s batch i,
         calls m_load_llm (trace (snd (validation_step batch i s)))
         = calls m_load_llm (trace s))
  /\ (forall s batch i,
         calls m_load_llm (trace (snd (test_step batch i s)))
         = calls m_load_llm (trace s))
  /\ (forall s batch p,
         calls m_load_llm (trace (snd (generate batch p s)))
         = calls m_load_llm (trace s))
  /\ (forall s,
         calls m_load_llm (trace (snd (configure_optimizers s)))
         = calls m_load_llm (trace s))
  /\ (forall s batch,
         calls m_load_llm (trace (snd (forward batch s)))
         = calls m_load_llm (trace s))
  /\ (forall s,
         calls m_load_llm (trace (snd (on_validation_epoch_end s)))
         = calls m_load_llm (trace s)
         /\ calls m_load_llm (trace (snd (on_test_epoch_end s)))
            = calls m_load_llm (trace s)).
Proof.
  split.
  { intros kargs tr. destruct (construct_trace kargs tr) as (rest & E & H0).
    split; [|eauto]. rewrite E.
    change (Enter m_init :: Enter m_load_llm :: rest)
      with ([Enter m_init; Enter m_load_llm] ++ rest).
    rewrite calls_app, H0. reflexivity. }
  repeat split; intros.
  - apply quiet_training_step.
  - apply quiet_validation_step.
  - apply quiet_test_step.
  - apply quiet_generate.
  - apply quiet_configure_optimizers.
  - apply quiet_forward.
  - unfold on_validation_epoch_end.
    apply (quiet_bind (emit (Enter m_on_validation_epoch_end))).
    + apply quiet_emit. reflexivity.
    + intros _. apply quiet_epoch_end.
  - unfold on_test_epoch_end.
    apply (quiet_bind (emit (Enter m_on_test_epoch_end))).
    + apply quiet_emit. reflexivity.
    + intros _. apply quiet_epoch_end.
Qed.

(** ** [generate] and the reference answers *)

Section Generate.

Context {L : Libraries}.

(** [zip] cuts the prompts at the number of answers. *)
Lemma prompts_of_zip (prompts answers : list string) :
  map (fun p : string * string => Single (fst p)) (combine prompts answers) =
  map Single (firstn (Nat.min (length prompts) (length answers)) prompts).
Proof.
  revert answers. induction prompts as [|x prompts IH]; intros [|y answers];
    cbn; try reflexivity.
  now rewrite IH.
Qed.

End Generate.

(** C8, as the code has it: two batches with the same ['input'] whose
    ['answer'] lists cut the prompts at the same length, as any two lists
    with one answer per prompt do, give the same [generate]: result and
    instance alike.  The answer strings are never read. *)
Theorem generate_ignores_answers {L : Libraries} (s : MInterface)
    (b1 b2 : Batch) (p : GenerateParams) :
  input b1 = input b2 ->
  Nat.min (length (input b1)) (length (answer b1)) =
  Nat.min (length (input b2)) (length (answer b2)) ->
  generate b1 p s = generate b2 p s.
Proof.
  intros Hin Hlen. unfold generate.
  rewrite !prompts_of_zip, Hlen, Hin. reflexivity.
Qed.

Lemma generate_ignores_answers_witness :
  let b1 := {| input := ["a"; "bc"]; answer := ["<1>"; "<2>"] |} in
  let b2 := {| input := ["a"; "bc"]; answer := ["<7>"; "none"; "more"] |} in
  generate b1 default_params Example.instance
  = generate b2 default_params Example.instance.
Proof.
  intros b1 b2.
  exact (generate_ignores_answers Example.instance b1 b2 default_params
           eq_refl eq_refl).
Defined.

(** Two batches with the same ['input']: with one answer missing,
    [generate] decodes one text less. *)
Lemma generate_reads_answer_count :
  let b1 := {| input := ["a"; "bc"]; answer := ["<1>"; "<2>"] |} in
  let b2 := {| input := ["a"; "bc"]; answer := ["<1>"] |} in
  input b1 = input b2
  /\ fst (generate b1 default_params Example.instance) = Ok ["a<1>"; "bc<1>"]
  /\ fst (generate b2 default_params Example.instance) = Ok ["a<1>"]
  /\ generate b1 default_params Example.instance
     <> generate b2 default_params Example.instance.
Proof.
  intros b1 b2. split; [reflexivity|].
  assert (fst (generate b1 default_params Example.instance) = Ok ["a<1>"; "bc<1>"])
    as H1 by reflexivity.
  assert (fst (generate b2 default_params Example.instance) = Ok ["a<1>"])
    as H2 by reflexivity.
  repeat split; try assumption.
  intro E. rewrite E in H1. rewrite H1 in H2. discriminate.
Qed.

(** ** The epoch-end extraction *)

Section Extraction.

Context {L : Libraries}.

Lemma last_default {A} (l : list A) (a d d' : A) : last (a :: l) d = last (a :: l) d'.
Proof.
  revert a. induction l as [|b l IH]; intro a; [reflexivity|].
  change (last (b :: l) d = last (b :: l) d'). apply IH.
Qed.

Lemma rev_head_last {A} (l : list A) (a : A) :
  exists tl, rev (a :: l) = last l a :: tl.
Proof.
  revert a. induction l as [|b l IH]; intro a.
  - exists []. reflexivity.
  - destruct (IH b) as (tl & E).
    exists (tl ++ [a]).
    change (rev (a :: b :: l)) with (rev (b :: l) ++ [a]). rewrite E.
    cbn [app]. f_equal.
    change (last (b :: l) a) with (match l with [] => b | _ :: _ => last l a end).
    destruct l as [|c l]; [reflexivity|]. apply last_default.
Qed.

(** [l[-1]] is the last element. *)
Lemma index_last_last {A} (l : list A) :
  index_last l =
  match l with
  | [] => Raise IndexError
  | a :: l' => Ok (last l' a)
  end.
Proof.
  destruct l as [|a l]; [reflexivity|].
  unfold index_last. destruct (rev_head_last l a) as (tl & ->). reflexivity.
Qed.

Lemma index_last_group (text : string) :
  index_last (Re.findall text) =
  match last_group text with
  | Some g => Ok g
  | None => Raise IndexError
  end.
Proof.
  rewrite index_last_last. unfold last_group. now destruct (Re.findall text).
Qed.

Lemma index_first_group (text : string) :
  index_first (Re.findall text) =
  match first_group text with
  | Some g => Ok g
  | None => Raise IndexError
  end.
Proof. unfold first_group. now destruct (Re.findall text). Qed.

(** One turn of the loop does what the description says. *)
Lemma extract_extracted (predict label : string) :
  extract predict label = extracted predict label.
Proof.
  unfold extract, extracted, to_float, to_prediction.
  rewrite index_last_group, index_first_group.
  destruct (last_group predict) as [g|]; [|reflexivity].
  destruct (first_group label) as [h|]; [|reflexivity].
  cbn [Py.bind]. destruct (py_float h); reflexivity.
Qed.

(** The loop appends the results of its turns to the two lists. *)
Lemma extract_all_extracted (pairs : list (string * string))
    (y_true y_pre : list number) :
  extract_all pairs y_true y_pre =
  (rs <- extracted_all pairs ;;
   Ok (y_true ++ map snd rs, y_pre ++ map fst rs)).
Proof.
  revert y_true y_pre.
  induction pairs as [|[predict label] pairs IH]; intros y_true y_pre;
    cbn [extract_all extracted_all Py.bind map].
  - now rewrite !app_nil_r.
  - rewrite extract_extracted.
    destruct (extracted predict label) as [x|e]; [|reflexivity].
    cbn [Py.bind]. rewrite IH.
    destruct (extracted_all pairs) as [xs|e]; [|reflexivity].
    cbn [Py.bind map]. now rewrite <- !app_assoc.
Qed.

(** The epoch-end hook on an instance that has its content. *)
Lemma epoch_end_run (name : string) (get : MInterface -> option Content)
    (s : MInterface) (c : Content) :
  get s = Some c ->
  epoch_end name get s =
  match extracted_all (combine (generated_text c) (label c)) with
  | Ok rs =>
      match mean_absolute_error (map snd rs) (map fst rs) with
      | Ok mae => (Ok tt, record (Log "metric" (LFloat mae)) s)
      | Raise e => (Raise e, s)
      end
  | Raise e => (Raise e, s)
  end.
Proof.
  intro Hc. unfold epoch_end, mbind, attr, lift, log, emit, modify.
  rewrite Hc, extract_all_extracted.
  destruct (extracted_all _) as [rs|e]; [|reflexivity].
  cbn [Py.bind fst snd app].
  destruct (mean_absolute_error _ _); reflexivity.
Qed.

Lemma extracted_all_nth (pairs : list (string * string))
    (rs : list (number * number)) (i : nat) (predict label : string) :
  extracted_all pairs = Ok rs ->
  nth_error pairs i = Some (predict, label) ->
  exists x, extracted predict label = Ok x /\ nth_error rs i = Some x.
Proof.
  revert rs i. induction pairs as [|[p l] pairs IH]; intros rs i Hrs Hi.
  - destruct i; discriminate.
  - cbn [extracted_all] in Hrs.
    destruct (extracted p l) as [x|e] eqn:Hx; [|discriminate].
    cbn [Py.bind] in Hrs.
    destruct (extracted_all pairs) as [xs|e] eqn:Hxs; [|discriminate].
    injection Hrs as <-.
    destruct i as [|i]; cbn [nth_error] in *.
    + injection Hi as -> ->. eauto.
    + eapply IH; eauto.
Qed.

Lemma extracted_all_raise (pairs : list (string * string))
    (predict label : string) (e : exn) :
  In (predict, label) pairs -> extracted predict label = Raise e ->
  exists e', extracted_all pairs = Raise e'.
Proof.
  intros Hin He. induction pairs as [|[p l] pairs IH]; [contradiction|].
  cbn [extracted_all].
  destruct Hin as [E|Hin].
  - injection E as -> ->. rewrite He. eexists. reflexivity.
  - destruct (extracted p l); [|eexists; reflexivity]. cbn [Py.bind].
    destruct (IH Hin) as (e' & ->). eexists. reflexivity.
Qed.

Lemma extracted_all_ok (pairs : list (string * string)) :
  (forall p l, In (p, l) pairs -> exists x, extracted p l = Ok x) ->
  exists rs, extracted_all pairs = Ok rs.
Proof.
  induction pairs as [|[p l] pairs IH]; intro H; [eexists; reflexivity|].
  cbn [extracted_all].
  destruct (H p l (or_introl eq_refl)) as (x & ->).
  destruct IH as (rs & ->); [intros; apply H; now right|].
  eexists. reflexivity.
Qed.

End Extraction.

(** C3: every turn of the epoch-end loop takes the last group the pattern
    finds in the generated text as the prediction and the first group it
    finds in the label, through [float], as the reference; the validation
    and the test hook hand the two lists so collected to
    [mean_absolute_error]. *)
Theorem epoch_end_extraction {L : Libraries} :
  (forall predict label, extract predict label = extracted predict label)
  /\ (forall predict label g h v,
         last_group predict = Some g -> first_group label = Some h ->
         py_float h = Some v ->
         extract predict label = Ok (to_prediction g, Float v))
  /\ (forall s c,
         val_content s = Some c ->
         fst (on_validation_epoch_end s) =
         (rs <- extracted_all (combine (generated_text c) (label c)) ;;
          mae <- mean_absolute_error (map snd rs) (map fst rs) ;;
          Ok tt))
  /\ (forall s c,
         test_content s = Some c ->
         fst (on_test_epoch_end s) =
         (rs <- extracted_all (combine (generated_text c) (label c)) ;;
          mae <- mean_absolute_error (map snd rs) (map fst rs) ;;
          Ok tt)).
Proof.
  split; [exact extract_extracted|]. split.
  { intros predict label g h v Hg Hh Hv.
    rewrite extract_extracted. unfold extracted, to_prediction.
    now rewrite Hg, Hh, Hv. }
  split; intros s c Hc.
  - unfold on_validation_epoch_end, mbind, emit, modify.
    rewrite (epoch_end_run "val_content" val_content
               (record (Enter m_on_validation_epoch_end) s) c Hc).
    destruct (extracted_all _) as [rs|e]; [|reflexivity].
    cbn [Py.bind]. destruct (mean_absolute_error _ _); reflexivity.
  - unfold on_test_epoch_end, mbind, emit, modify.
    rewrite (epoch_end_run "test_content" test_content
               (record (Enter m_on_test_epoch_end) s) c Hc).
    destruct (extracted_all _) as [rs|e]; [|reflexivity].
    cbn [Py.bind]. destruct (mean_absolute_error _ _); reflexivity.
Qed.

(** The example validation epoch: the prompts are decoded along with the
    answer, the last group is the model's. *)
Lemma epoch_end_extraction_witness :
  extract (L := Example.libraries) "bc<1>" "<2>"
  = Ok (Float (float_of_int 1), Float (float_of_int 2))
  /\ fst (on_validation_epoch_end Example.validated) =
     (rs <- extracted_all (L := Example.libraries)
              [("a<1>", "<1>"); ("bc<1>", "<2>")] ;;
      mae <- Example.mae (map snd rs) (map fst rs) ;;
      Ok tt).
Proof.
  pose proof (@epoch_end_extraction Example.libraries) as (_ & Hpair & Hval & _).
  split.
  - exact (Hpair "bc<1>" "<2>" "1" "2" (float_of_int 2) eq_refl eq_refl eq_refl).
  - exact (Hval Example.validated
             {| c_input := ["a"; "bc"]; generated_text := ["a<1>"; "bc<1>"];
                label := ["<1>"; "<2>"] |} eq_refl).
Defined.

(** C9: when the generated text has a match and its last group [g] is no
    float, the prediction of that turn is the integer 0; the label is
    outside the [try]: without a first group, or with one that is no float,
    the turn raises and so does the hook of any epoch that holds the
    pair. *)
Theorem unparsable_prediction_is_zero {L : Libraries}
    (predict lab g : string) :
  last_group predict = Some g ->
  (py_float g = None ->
     (forall h v,
         first_group lab = Some h -> py_float h = Some v ->
         extract predict lab = Ok (Int 0, Float v))
     /\ (forall pairs y_true y_pre i,
            extract_all pairs [] [] = Ok (y_true, y_pre) ->
            nth_error pairs i = Some (predict, lab) ->
            nth_error y_pre i = Some (Int 0)))
  /\ (first_group lab = None -> extract predict lab = Raise IndexError)
  /\ (forall h,
         first_group lab = Some h -> py_float h = None ->
         extract predict lab =
         Raise (ValueError "could not convert string to float"))
  /\ ((forall h, first_group lab = Some h -> py_float h = None) ->
      (forall s c,
          val_content s = Some c ->
          In (predict, lab) (combine (generated_text c) (label c)) ->
          exists e, fst (on_validation_epoch_end s) = Raise e)
      /\ (forall s c,
             test_content s = Some c ->
             In (predict, lab) (combine (generated_text c) (label c)) ->
             exists e, fst (on_test_epoch_end s) = Raise e)).
Proof.
  intro Hg.
  assert (forall h, first_group lab = Some h -> py_float h = None ->
                    extracted predict lab =
                    Raise (ValueError "could not convert string to float")) as Hval.
  { intros h Hh Hf. unfold extracted. now rewrite Hg, Hh, Hf. }
  assert (first_group lab = None -> extracted predict lab = Raise IndexError) as Hidx.
  { intro Hh. unfold extracted. now rewrite Hg, Hh. }
  repeat split.
  - intros h v Hh Hv. rewrite extract_extracted. unfold extracted.
    now rewrite Hg, Hh, Hv, H.
  - intros pairs y_true y_pre i Hall Hi.
    rewrite extract_all_extracted in Hall.
    destruct (extracted_all pairs) as [rs|e] eqn:Hrs; [|discriminate].
    injection Hall as _ <-.
    destruct (extracted_all_nth pairs rs i predict lab Hrs Hi) as (x & Hx & Hn).
    cbn [app]. rewrite nth_error_map, Hn. cbn [option_map]. f_equal.
    unfold extracted in Hx. rewrite Hg, H in Hx.
    destruct (first_group lab) as [h|]; [|discriminate].
    destruct (py_float h); [|discriminate]. now injection Hx as <-.
  - intro Hh. rewrite extract_extracted. auto.
  - intros h Hh Hf. rewrite extract_extracted. eauto.
  - intros s c Hc Hin.
    assert (exists e, extracted predict lab = Raise e) as (e & He).
    { destruct (first_group lab) as [h|] eqn:Hh; eauto. }
    destruct (extracted_all_raise _ predict lab e Hin He) as (e' & Hall).
    unfold on_validation_epoch_end, mbind, emit, modify.
    rewrite (epoch_end_run "val_content" val_content
               (record (Enter m_on_validation_epoch_end) s) c Hc), Hall.
    eexists. reflexivity.
  - intros s c Hc Hin.
    assert (exists e, extracted predict lab = Raise e) as (e & He).
    { destruct (first_group lab) as [h|] eqn:Hh; eauto. }
    destruct (extracted_all_raise _ predict lab e Hin He) as (e' & Hall).
    unfold on_test_epoch_end, mbind, emit, modify.
    rewrite (epoch_end_run "test_content" test_content
               (record (Enter m_on_test_epoch_end) s) c Hc), Hall.
    eexists. reflexivity.
Qed.

(** A generated text whose last group is a word, with a numeric label and
    with a label that is a word. *)
Lemma unparsable_prediction_witness :
  let c := {| c_input := ["a"]; generated_text := ["a<1> or <two>"];
              label := ["<one>"] |} in
  let s := set_val_content c Example.instance in
  extract (L := Example.libraries) "a<1> or <two>" "<2>"
  = Ok (Int 0, Float (float_of_int 2))
  /\ extract (L := Example.libraries) "a<1> or <two>" "<one>"
     = Raise (ValueError "could not convert string to float")
  /\ extract (L := Example.libraries) "a<1> or <two>" "none" = Raise IndexError
  /\ exists e, fst (on_validation_epoch_end s) = Raise e.
Proof.
  intros c s.
  pose proof (@unparsable_prediction_is_zero Example.libraries
                "a<1> or <two>" "<2>" "two" eq_refl) as (H2 & _).
  pose proof (@unparsable_prediction_is_zero Example.libraries
                "a<1> or <two>" "<one>" "two" eq_refl) as (_ & _ & H1 & _).
  pose proof (@unparsable_prediction_is_zero Example.libraries
                "a<1> or <two>" "none" "two" eq_refl) as (_ & H0 & _).
  pose proof (@unparsable_prediction_is_zero Example.libraries
                "a<1> or <two>" "<one>" "two" eq_refl) as (_ & _ & _ & He).
  split; [|split; [|split]].
  - exact (proj1 (H2 eq_refl) "2" (float_of_int 2) eq_refl eq_refl).
  - exact (H1 "one" eq_refl eq_refl).
  - exact (H0 eq_refl).
  - refine (proj1 (He _) s c eq_refl (or_introl eq_refl)).
    intros h E. injection E as <-. reflexivity.
Defined.

(** C10, as the code has it: when every generated text and every label of
    the epoch holds a [<...>] within one line, neither [[-1]] nor [[0]]
    meets an empty list and the loop raises no [IndexError]; a hook that
    ends normally had only such texts; and a generated text without a match
    makes [re.findall(pattern, predict)[-1]] raise [IndexError]. *)
Theorem epoch_end_indexing {L : Libraries} :
  (forall pairs : list (string * string),
      (forall p l, In (p, l) pairs ->
                   Re.bracketed_in_line p /\ Re.bracketed_in_line l) ->
      (forall p l, In (p, l) pairs ->
                   exists g h, index_last (Re.findall p) = Ok g
                               /\ index_first (Re.findall l) = Ok h)
      /\ extract_all pairs [] [] <> Raise IndexError)
  /\ (forall s c,
         val_content s = Some c ->
         fst (on_validation_epoch_end s) = Ok tt ->
         forall p l, In (p, l) (combine (generated_text c) (label c)) ->
                     Re.bracketed_in_line p /\ Re.bracketed_in_line l)
  /\ (forall s c,
         test_content s = Some c ->
         fst (on_test_epoch_end s) = Ok tt ->
         forall p l, In (p, l) (combine (generated_text c) (label c)) ->
                     Re.bracketed_in_line p /\ Re.bracketed_in_line l)
  /\ (exists text,
         ~ Re.bracketed_in_line text
         /\ index_last (Re.findall text) = Raise IndexError
         /\ forall lab s c,
             generated_text c = [text] -> label c = [lab] ->
             (val_content s = Some c ->
              fst (on_validation_epoch_end s) = Raise IndexError)
             /\ (test_content s = Some c ->
                 fst (on_test_epoch_end s) = Raise IndexError)).
Proof.
  assert (forall p l, Re.bracketed_in_line p -> Re.bracketed_in_line l ->
            exists g h, last_group p = Some g /\ first_group l = Some h) as Hgroups.
  { intros p l Hp Hl.
    apply ReFacts.findall_nonempty_iff in Hp, Hl.
    unfold last_group, first_group.
    destruct (Re.findall p); [now elim Hp|].
    destruct (Re.findall l); [now elim Hl|]. cbn. eauto. }
  assert (forall p l x, extracted p l = Ok x ->
            Re.bracketed_in_line p /\ Re.bracketed_in_line l) as Hback.
  { intros p l x Hx. unfold extracted, last_group, first_group in Hx.
    split; apply ReFacts.findall_nonempty_iff; intro E; rewrite E in Hx;
      cbn in Hx; [|destruct (Re.findall p)]; discriminate. }
  assert (forall pairs rs p l, extracted_all pairs = Ok rs -> In (p, l) pairs ->
            Re.bracketed_in_line p /\ Re.bracketed_in_line l) as Hall.
  { intros pairs rs p l Hrs Hin.
    apply In_nth_error in Hin as (i & Hi).
    destruct (extracted_all_nth pairs rs i p l Hrs Hi) as (x & Hx & _).
    eauto. }
  split; [|split; [|split]].
  - intros pairs Hpairs. split.
    + intros p l Hin. destruct (Hpairs p l Hin) as (Hp & Hl).
      destruct (Hgroups p l Hp Hl) as (g & h & Hg & Hh).
      exists g, h. now rewrite index_last_group, index_first_group, Hg, Hh.
    + rewrite extract_all_extracted.
      induction pairs as [|[p l] pairs IH]; [discriminate|].
      cbn [extracted_all].
      destruct (Hpairs p l (or_introl eq_refl)) as (Hp & Hl).
      destruct (Hgroups p l Hp Hl) as (g & h & Hg & Hh).
      unfold extracted at 1. rewrite Hg, Hh.
      destruct (py_float h); [|discriminate]. cbn [Py.bind].
      assert (forall p l, In (p, l) pairs ->
                Re.bracketed_in_line p /\ Re.bracketed_in_line l) as Hrest
        by (intros; apply Hpairs; now right).
      specialize (IH Hrest).
      destruct (extracted_all pairs) as [rs|e]; [discriminate|exact IH].
  - intros s c Hc Hok p l Hin.
    unfold on_validation_epoch_end, mbind, emit, modify in Hok.
    rewrite (epoch_end_run "val_content" val_content
               (record (Enter m_on_validation_epoch_end) s) c Hc) in Hok.
    destruct (extracted_all _) as [rs|e] eqn:Hrs; [|discriminate].
    eapply Hall; eassumption.
  - intros s c Hc Hok p l Hin.
    unfold on_test_epoch_end, mbind, emit, modify in Hok.
    rewrite (epoch_end_run "test_content" test_content
               (record (Enter m_on_test_epoch_end) s) c Hc) in Hok.
    destruct (extracted_all _) as [rs|e] eqn:Hrs; [|discriminate].
    eapply Hall; eassumption.
  - exists "no answer". split; [now apply ReFacts.findall_empty_iff|].
    split; [reflexivity|].
    intros lab s c Hg Hl. split; intro Hc.
    + unfold on_validation_epoch_end, mbind, emit, modify.
      rewrite (epoch_end_run "val_content" val_content
                 (record (Enter m_on_validation_epoch_end) s) c Hc), Hg, Hl.
      reflexivity.
    + unfold on_test_epoch_end, mbind, emit, modify.
      rewrite (epoch_end_run "test_content" test_content
                 (record (Enter m_on_test_epoch_end) s) c Hc), Hg, Hl.
      reflexivity.
Qed.

(** The example validation epoch meets the condition. *)
Lemma epoch_end_indexing_witness :
  (forall p l, In (p, l) [("a<1>", "<1>"); ("bc<1>", "<2>")] ->
               Re.bracketed_in_line p /\ Re.bracketed_in_line l)
  /\ extract_all (L := Example.libraries)
       [("a<1>", "<1>"); ("bc<1>", "<2>")] [] [] <> Raise IndexError.
Proof.
  assert (forall p l, In (p, l) [("a<1>", "<1>"); ("bc<1>", "<2>")] ->
                      Re.bracketed_in_line p /\ Re.bracketed_in_line l) as H.
  { intros p l [E|[E|[]]]; injection E as <- <-;
      split; apply ReFacts.findall_nonempty_iff; discriminate. }
  split; [exact H|].
  exact (proj2 (proj1 (@epoch_end_indexing Example.libraries) _ H)).
Defined.

(** A generated text with its brackets on two lines holds a [<...>]
    substring, yet the pattern finds nothing in it and the hook raises
    [IndexError]. *)
Lemma bracket_across_lines_raises :
  let text := ("<1" ++ String Re.newline ">")%string in
  let s := set_val_content
             {| c_input := ["a"]; generated_text := [text]; label := ["<1>"] |}
             Example.instance in
  Re.bracketed text /\ Re.bracketed "<1>"
  /\ Re.findall text = []
  /\ index_last (Re.findall text) = Raise IndexError
  /\ fst (on_validation_epoch_end s) = Raise IndexError.
Proof.
  intros text s. repeat split.
  - exists EmptyString, ("1" ++ String Re.newline "")%string, EmptyString. reflexivity.
  - exists EmptyString, "1"%string, EmptyString. reflexivity.
Qed.

(** * More on the module *)

(** ** What a method leaves alone *)

Section Keeps.

Context {L : Libraries}.

Lemma keeps_ret {A B} (f : MInterface -> B) (a : A) : keeps f (ret a).
Proof. intro s. reflexivity. Qed.

Lemma keeps_raise {A B} (f : MInterface -> B) (e : exn) : keeps f (@raise L A e).
Proof. intro s. reflexivity. Qed.

Lemma keeps_lift {A B} (f : MInterface -> B) (x : result A) : keeps f (lift x).
Proof. intro s. reflexivity. Qed.

Lemma keeps_gets {A B} (f : MInterface -> B) (g : MInterface -> A) :
  keeps f (gets g).
Proof. intro s. reflexivity. Qed.

Lemma keeps_attr {A B} (f : MInterface -> B) (name : string)
    (g : MInterface -> option A) :
  keeps f (attr name g).
Proof. intro s. unfold attr. now destruct (g s). Qed.

Lemma keeps_modify {B} (f : MInterface -> B) (g : MInterface -> MInterface) :
  (forall s, f (g s) = f s) -> keeps f (modify g).
Proof. intros H s. apply H. Qed.

Lemma keeps_emit {B} (f : MInterface -> B) (e : event) :
  (forall s, f (record e s) = f s) -> keeps f (emit e).
Proof. intros H s. apply H. Qed.

Lemma keeps_bind {A B C} (f : MInterface -> C) (c : M A) (k : A -> M B) :
  keeps f c -> (forall a, keeps f (k a)) -> keeps f (mbind c k).
Proof.
  intros Hc Hk s. unfold mbind. specialize (Hc s).
  destruct (c s) as [[a|e] s']; cbn [snd] in *; [|exact Hc].
  now rewrite Hk.
Qed.

Lemma keeps_pair {A B C} (f : MInterface -> B) (g : MInterface -> C) (c : M A) :
  keeps f c -> keeps g c -> keeps (fun s => (f s, g s)) c.
Proof. intros Hf Hg s. now rewrite Hf, Hg. Qed.

End Keeps.

Ltac keeps :=
  repeat first
    [ assumption
    | apply keeps_ret | apply keeps_raise | apply keeps_lift
    | apply keeps_gets | apply keeps_attr
    | apply keeps_emit; intro; reflexivity
    | apply keeps_modify; solve [intro; reflexivity | auto]
    | apply keeps_bind; [|intros ?]
    | match goal with
      | |- keeps _ (match ?x with _ => _ end) => destruct x
      end
    | progress cbv zeta ].

Section KeepsMethods.

Context {L : Libraries}.

Lemma keeps_forward (batch : Batch) : keeps attributes (forward batch).
Proof. unfold forward, print. keeps. Qed.

Lemma keeps_generate (batch : Batch) (p : GenerateParams) :
  keeps attributes (generate batch p).
Proof. unfold generate. keeps. Qed.

Lemma keeps_epoch_end (name : string) (get : MInterface -> option Content) :
  keeps attributes (epoch_end name get).
Proof. unfold epoch_end, log. keeps. Qed.

Lemma keeps_store {B} (f : MInterface -> B) (name : string)
    (get : MInterface -> option Content)
    (set : Content -> MInterface -> MInterface) :
  (forall c s, f (set c s) = f s) ->
  forall texts pairs b, keeps f (store name get set texts b pairs).
Proof.
  intros Hset texts pairs.
  induction pairs as [|[prompt answer] pairs IH]; intro b; cbn [store].
  - keeps.
  - specialize (IH (S b)). keeps.
Qed.

(** A projection of [attributes] is kept with them. *)
Lemma keeps_part {A B C} (f : MInterface -> B) (g : B -> C) (c : M A) :
  keeps f c -> keeps (fun s => g (f s)) c.
Proof. intros H s. now rewrite H. Qed.

Lemma keeps_validation_end : keeps attributes on_validation_epoch_end.
Proof.
  unfold on_validation_epoch_end.
  pose proof (keeps_epoch_end "val_content" val_content). keeps.
Qed.

Lemma keeps_test_end : keeps attributes on_test_epoch_end.
Proof.
  unfold on_test_epoch_end.
  pose proof (keeps_epoch_end "test_content" test_content). keeps.
Qed.

Lemma keeps_validation_step (batch : Batch) (i : Z) :
  keeps (fun s => (assigned_once s, scheduler s, test_content s))
        (validation_step batch i).
Proof.
  unfold validation_step, step.
  pose proof (keeps_part attributes
                (fun a => let '(h, _, c, t, m, sc, _, te) := a in (h, c, t, m, sc, te))
                _ (keeps_generate batch default_params)) as Hg.
  apply keeps_bind; [keeps|]. intros _.
  apply keeps_bind; [exact Hg|]. intro texts.
  apply keeps_store. reflexivity.
Qed.

Lemma keeps_test_step (batch : Batch) (i : Z) :
  keeps (fun s => (assigned_once s, scheduler s, val_content s))
        (test_step batch i).
Proof.
  unfold test_step, step.
  pose proof (keeps_part attributes
                (fun a => let '(h, _, c, t, m, sc, v, _) := a in (h, c, t, m, sc, v))
                _ (keeps_generate batch default_params)) as Hg.
  apply keeps_bind; [keeps|]. intros _.
  apply keeps_bind; [exact Hg|]. intro texts.
  apply keeps_store. reflexivity.
Qed.

Lemma keeps_validation_start :
  keeps (fun s => (assigned_once s, scheduler s, test_content s))
        on_validation_epoch_start.
Proof. unfold on_validation_epoch_start. keeps. Qed.

Lemma keeps_test_start :
  keeps (fun s => (assigned_once s, scheduler s, val_content s))
        on_test_epoch_start.
Proof. unfold on_test_epoch_start. keeps. Qed.

Lemma keeps_training_step (batch : Batch) (i : Z) :
  keeps (fun s => (assigned_once s, val_content s, test_content s))
        (training_step batch i).
Proof.
  unfold training_step, log.
  pose proof (keeps_part attributes
                (fun a => let '(h, _, c, t, m, _, v, te) := a in (h, c, t, m, v, te))
                _ (keeps_forward batch)) as Hf.
  keeps.
Qed.

Lemma keeps_configure_optimizers :
  keeps (fun s => (assigned_once s, val_content s, test_content s))
        configure_optimizers.
Proof. unfold configure_optimizers, print. keeps. Qed.

End KeepsMethods.

(** X1: [forward], [generate] and the two epoch-end hooks change nothing
    of the instance but its history: no attribute is assigned, the
    collected lists are not cleared. *)
Theorem only_history_changes {L : Libraries} :
  (forall batch, keeps attributes (forward batch))
  /\ (forall batch p, keeps attributes (generate batch p))
  /\ keeps attributes on_validation_epoch_end
  /\ keeps attributes on_test_epoch_end.
Proof.
  split; [|split; [|split]]; intros.
  - apply keeps_forward.
  - apply keeps_generate.
  - apply keeps_validation_end.
  - apply keeps_test_end.
Qed.

(** X2: the validation hooks never touch [test_content], the test hooks
    never touch [val_content], neither touches the scheduler;
    [training_step] and [configure_optimizers] touch neither content; and
    none of them reassigns what the construction assigned
    ([hparams], [cuda], tokenizer, model). *)
Theorem hooks_stay_apart {L : Libraries} :
  (forall batch i,
      keeps (fun s => (assigned_once s, scheduler s, test_content s))
            (validation_step batch i))
  /\ keeps (fun s => (assigned_once s, scheduler s, test_content s))
           on_validation_epoch_start
  /\ (forall batch i,
         keeps (fun s => (assigned_once s, scheduler s, val_content s))
               (test_step batch i))
  /\ keeps (fun s => (assigned_once s, scheduler s, val_content s))
           on_test_epoch_start
  /\ (forall batch i,
         keeps (fun s => (assigned_once s, val_content s, test_content s))
               (training_step batch i))
  /\ keeps (fun s => (assigned_once s, val_content s, test_content s))
           configure_optimizers.
Proof.
  split; [|split; [|split; [|split; [|split]]]]; intros.
  - apply keeps_validation_step.
  - apply keeps_validation_start.
  - apply keeps_test_step.
  - apply keeps_test_start.
  - apply keeps_training_step.
  - apply keeps_configure_optimizers.
Qed.

(** ** What the steps store *)

Section Stores.

Context {L : Libraries}.

(** [generate] on an instance that has its tokenizer and model. *)
Lemma generate_run (s : MInterface) (batch : Batch) (p : GenerateParams)
    (tok : Tokenizer Vocab) (m : Model) :
  tokenizer s = Some tok -> model s = Some m ->
  let args := generate_args tok (hparams s) batch p in
  generate batch p s =
  (Ok (batch_decode tok (model_generate m args)),
   record (RunGenerate args) (record (Enter m_generate) s)).
Proof.
  intros Htok Hm args.
  unfold generate, mbind, emit, modify, attr, gets, ret.
  cbn. rewrite Htok. cbn. rewrite Hm. reflexivity.
Qed.

Lemma skipn_nth {A} (l : list A) (b : nat) (x : A) :
  nth_error l b = Some x -> skipn b l = x :: skipn (S b) l.
Proof.
  revert b. induction l as [|y l IH]; intros [|b] H; try discriminate.
  - now injection H as ->.
  - cbn [skipn] in *. now apply IH.
Qed.

Lemma content_eta (c : Content) : extended c [] [] [] = c.
Proof. destruct c. unfold extended. cbn. now rewrite !app_nil_r. Qed.

Variable name : string.
Variable get : MInterface -> option Content.
Variable set : Content -> MInterface -> MInterface.
Hypothesis get_set : forall c s, get (set c s) = Some c.

(** The loop when the texts suffice: one entry more in each list for every
    pair. *)
Lemma store_enough (texts : list string) (pairs : list (string * string)) :
  forall b s c,
    get s = Some c -> b + length pairs <= length texts ->
    exists s',
      store name get set texts b pairs s = (Ok tt, s')
      /\ get s' =
         Some (extended c (map fst pairs) (taken texts b (length pairs))
                        (map snd pairs)).
Proof.
  induction pairs as [|[prompt ans] pairs IH]; intros b s c Hc Hlen.
  - exists s. split; [reflexivity|]. unfold taken. cbn. now rewrite content_eta.
  - cbn [length] in Hlen.
    destruct (nth_error texts b) as [text|] eqn:Hb;
      [|apply nth_error_None in Hb; lia].
    destruct (IH (S b)
                (set (append_generated_text text
                        (append_label ans (append_input prompt c)))
                     (set (append_label ans (append_input prompt c))
                          (set (append_input prompt c) s)))
                (append_generated_text text
                   (append_label ans (append_input prompt c))))
      as (s' & Hrun & Hget); [apply get_set | lia |].
    exists s'. split.
    + cbn [store]. unfold mbind, attr, modify, lift, index.
      rewrite Hc, !get_set, Hb. exact Hrun.
    + rewrite Hget. unfold extended, taken. cbn [length map].
      rewrite (skipn_nth _ _ _ Hb). cbn.
      now rewrite <- !app_assoc.
Qed.

(** The loop when the texts run out: [IndexError], with the prompt and the
    answer of the failing turn already stored. *)
Lemma store_short (texts : list string) (pairs : list (string * string)) :
  forall b s c,
    get s = Some c -> b <= length texts -> length texts < b + length pairs ->
    let k := length texts - b in
    exists s',
      store name get set texts b pairs s = (Raise IndexError, s')
      /\ get s' =
         Some (extended c (firstn (S k) (map fst pairs)) (skipn b texts)
                        (firstn (S k) (map snd pairs))).
Proof.
  induction pairs as [|[prompt ans] pairs IH]; intros b s c Hc Hb Hlen k.
  - cbn in Hlen. lia.
  - cbn [length] in Hlen.
    destruct (nth_error texts b) as [text|] eqn:Htext.
    + assert (b < length texts) as Hlt by (apply nth_error_Some; congruence).
      destruct (IH (S b)
                  (set (append_generated_text text
                          (append_label ans (append_input prompt c)))
                       (set (append_label ans (append_input prompt c))
                            (set (append_input prompt c) s)))
                  (append_generated_text text
                     (append_label ans (append_input prompt c))))
        as (s' & Hrun & Hget); [apply get_set | lia | lia |].
      exists s'. split.
      * cbn [store]. unfold mbind, attr, modify, lift, index.
        rewrite Hc, !get_set, Htext. exact Hrun.
      * rewrite Hget. unfold extended.
        replace (S k) with (S (S (length texts - S b))) by (unfold k; lia).
        rewrite (skipn_nth _ _ _ Htext). cbn.
        now rewrite <- !app_assoc.
    + apply nth_error_None in Htext.
      assert (k = 0) as -> by (unfold k; lia).
      eexists. split.
      * cbn [store]. unfold mbind, attr, modify, lift, index.
        rewrite Hc, !get_set.
        replace (nth_error texts b) with (@None string)
          by (symmetry; now apply nth_error_None).
        reflexivity.
      * rewrite get_set. unfold extended. rewrite skipn_all2 by lia.
        cbn. now rewrite !app_nil_r.
Qed.

End Stores.

Section Steps.

Context {L : Libraries}.

Variable name : string.
Variable get : MInterface -> option Content.
Variable set : Content -> MInterface -> MInterface.
Hypothesis get_set : forall c s, get (set c s) = Some c.
Hypothesis get_record : forall e s, get (record e s) = get s.

Lemma step_enough (s : MInterface) (c : Content) (tok : Tokenizer Vocab)
    (m : Model) (batch : Batch) (i : Z) :
  tokenizer s = Some tok -> model s = Some m -> get s = Some c ->
  let pairs := combine (input batch) (answer batch) in
  let texts := batch_decode tok (model_generate m
                 (generate_args tok (hparams s) batch default_params)) in
  length pairs <= length texts ->
  exists s',
    step name get set batch i s = (Ok tt, s')
    /\ get s' = Some (extended c (map fst pairs) (firstn (length pairs) texts)
                               (map snd pairs)).
Proof.
  intros Htok Hm Hc pairs texts Hlen.
  unfold step, mbind. rewrite (generate_run s batch default_params tok m Htok Hm).
  cbv zeta. fold texts pairs.
  apply (store_enough name get set get_set texts pairs 0); [|exact Hlen].
  now rewrite !get_record.
Qed.

Lemma step_short (s : MInterface) (c : Content) (tok : Tokenizer Vocab)
    (m : Model) (batch : Batch) (i : Z) :
  tokenizer s = Some tok -> model s = Some m -> get s = Some c ->
  let pairs := combine (input batch) (answer batch) in
  let texts := batch_decode tok (model_generate m
                 (generate_args tok (hparams s) batch default_params)) in
  length texts < length pairs ->
  exists s',
    step name get set batch i s = (Raise IndexError, s')
    /\ get s' = Some (extended c (firstn (S (length texts)) (map fst pairs)) texts
                               (firstn (S (length texts)) (map snd pairs))).
Proof.
  intros Htok Hm Hc pairs texts Hlen.
  unfold step, mbind. rewrite (generate_run s batch default_params tok m Htok Hm).
  cbv zeta. fold texts pairs.
  destruct (store_short name get set get_set texts pairs 0
              (record (RunGenerate (generate_args tok (hparams s) batch default_params))
                      (record (Enter m_generate) s)) c)
    as (s' & Hrun & Hget); [now rewrite !get_record | lia | exact Hlen |].
  rewrite Nat.sub_0_r in Hget. eauto.
Qed.

End Steps.

Lemma aligned_extended (c : Content) (inputs texts labels : list string) :
  aligned c -> length inputs = length texts -> length labels = length texts ->
  aligned (extended c inputs texts labels).
Proof.
  intros (H1 & H2) Hi Hl. unfold aligned, extended. cbn.
  rewrite !length_app. lia.
Qed.

(** X3: on an instance with tokenizer, model and a content, a validation
    (test) step whose [generate] gave at least one text per (prompt,
    answer) pair returns and appends, pair by pair, the prompt, the text
    at the pair's position and the answer to the three lists: lists of one
    length stay of one length. *)
Theorem steps_store_aligned {L : Libraries} (s : MInterface) (c : Content)
    (tok : Tokenizer Vocab) (m : Model) (batch : Batch) (i : Z) :
  tokenizer s = Some tok -> model s = Some m ->
  let pairs := combine (input batch) (answer batch) in
  let texts := batch_decode tok (model_generate m
                 (generate_args tok (hparams s) batch default_params)) in
  length pairs <= length texts ->
  let c' := extended c (map fst pairs) (firstn (length pairs) texts)
                     (map snd pairs) in
  (val_content s = Some c ->
   fst (validation_step batch i s) = Ok tt
   /\ val_content (snd (validation_step batch i s)) = Some c')
  /\ (test_content s = Some c ->
      fst (test_step batch i s) = Ok tt
      /\ test_content (snd (test_step batch i s)) = Some c')
  /\ (aligned c -> aligned c').
Proof.
  intros Htok Hm pairs texts Hlen c'. split; [|split].
  - intro Hc. unfold validation_step, mbind, emit, modify.
    destruct (step_enough "val_content" val_content set_val_content
                (fun _ _ => eq_refl) (fun _ _ => eq_refl)
                (record (Enter m_validation_step) s) c tok m batch i Htok Hm Hc Hlen)
      as (s' & -> & Hget).
    split; [reflexivity | exact Hget].
  - intro Hc. unfold test_step, mbind, emit, modify.
    destruct (step_enough "test_content" test_content set_test_content
                (fun _ _ => eq_refl) (fun _ _ => eq_refl)
                (record (Enter m_test_step) s) c tok m batch i Htok Hm Hc Hlen)
      as (s' & -> & Hget).
    split; [reflexivity | exact Hget].
  - intro Hc. apply aligned_extended; [exact Hc| |].
    + rewrite length_map, length_firstn. lia.
    + rewrite length_map, length_firstn. lia.
Qed.

(** The example batch after the validation epoch started. *)
Lemma steps_store_aligned_witness :
  let s := snd (on_validation_epoch_start Example.instance) in
  fst (validation_step Example.batch 0 s) = Ok tt
  /\ val_content (snd (validation_step Example.batch 0 s)) =
     Some {| c_input := ["a"; "bc"]; generated_text := ["a<1>"; "bc<1>"];
             label := ["<1>"; "<2>"] |}.
Proof.
  intro s.
  assert (2 <= 2) as Hlen by lia.
  exact (proj1 (steps_store_aligned s empty_content
                  {| vocab := tt; pad_token_id := Some 0%Z; eos_token_id := Some 0%Z |}
                  _ Example.batch 0 eq_refl eq_refl Hlen) eq_refl).
Defined.

(** X4: when [generate] gave fewer texts than there are pairs, the step
    raises [IndexError] at [texts[b]]; by then the prompt and the answer
    of that turn are stored, so each of the two lists is one entry longer
    than [generated_text]. *)
Theorem steps_short_of_texts {L : Libraries} (s : MInterface) (c : Content)
    (tok : Tokenizer Vocab) (m : Model) (batch : Batch) (i : Z) :
  tokenizer s = Some tok -> model s = Some m ->
  let pairs := combine (input batch) (answer batch) in
  let texts := batch_decode tok (model_generate m
                 (generate_args tok (hparams s) batch default_params)) in
  length texts < length pairs ->
  let k := S (length texts) in
  let c' := extended c (firstn k (map fst pairs)) texts (firstn k (map snd pairs)) in
  (val_content s = Some c ->
   fst (validation_step batch i s) = Raise IndexError
   /\ val_content (snd (validation_step batch i s)) = Some c')
  /\ (test_content s = Some c ->
      fst (test_step batch i s) = Raise IndexError
      /\ test_content (snd (test_step batch i s)) = Some c')
  /\ (aligned c ->
      length (c_input c') = S (length (generated_text c'))
      /\ length (label c') = S (length (generated_text c'))).
Proof.
  intros Htok Hm pairs texts Hlen k c'. split; [|split].
  - intro Hc. unfold validation_step, mbind, emit, modify.
    destruct (step_short "val_content" val_content set_val_content
                (fun _ _ => eq_refl) (fun _ _ => eq_refl)
                (record (Enter m_validation_step) s) c tok m batch i Htok Hm Hc Hlen)
      as (s' & -> & Hget).
    split; [reflexivity | exact Hget].
  - intro Hc. unfold test_step, mbind, emit, modify.
    destruct (step_short "test_content" test_content set_test_content
                (fun _ _ => eq_refl) (fun _ _ => eq_refl)
                (record (Enter m_test_step) s) c tok m batch i Htok Hm Hc Hlen)
      as (s' & -> & Hget).
    split; [reflexivity | exact Hget].
  - intros (H1 & H2). unfold c', extended. cbn [c_input generated_text label].
    rewrite !length_app, !length_firstn, !length_map. unfold k. fold pairs. lia.
Qed.

(** With one text for two pairs the second turn fails. *)
Lemma steps_short_of_texts_witness :
  let s := set_val_content empty_content
             (snd (construct (L := Example.terse) Example.kargs Example.fit)) in
  fst (validation_step Example.batch 0 s) = Raise IndexError
  /\ val_content (snd (validation_step Example.batch 0 s)) =
     Some {| c_input := ["a"; "bc"]; generated_text := ["a<1>"];
             label := ["<1>"; "<2>"] |}.
Proof.
  intro s.
  assert (1 < 2) as Hlen by lia.
  exact (proj1 (@steps_short_of_texts Example.terse s empty_content
                  {| vocab := tt; pad_token_id := Some 0%Z; eos_token_id := Some 0%Z |}
                  _ Example.batch 0 eq_refl eq_refl Hlen) eq_refl).
Defined.

Section Epochs.

Context {L : Libraries}.

(** What an epoch-end hook returns is read off the content alone. *)
Lemma epoch_end_result (name : string) (get : MInterface -> option Content)
    (s : MInterface) :
  fst (epoch_end name get s) =
  match get s with
  | Some c =>
      (rs <- extracted_all (combine (generated_text c) (label c)) ;;
       mae <- mean_absolute_error (map snd rs) (map fst rs) ;;
       Ok tt)
  | None => Raise (AttributeError name)
  end.
Proof.
  destruct (get s) as [c|] eqn:Hc.
  - rewrite (epoch_end_run name get s c Hc).
    destruct (extracted_all _) as [rs|e]; [|reflexivity].
    cbn [Py.bind]. now destruct (mean_absolute_error _ _).
  - unfold epoch_end, mbind, attr. now rewrite Hc.
Qed.

Lemma validation_end_result (s : MInterface) :
  fst (on_validation_epoch_end s) =
  match val_content s with
  | Some c =>
      (rs <- extracted_all (combine (generated_text c) (label c)) ;;
       mae <- mean_absolute_error (map snd rs) (map fst rs) ;;
       Ok tt)
  | None => Raise (AttributeError "val_content")
  end.
Proof.
  unfold on_validation_epoch_end, mbind, emit, modify. cbn [fst snd].
  now rewrite epoch_end_result.
Qed.

Lemma test_end_result (s : MInterface) :
  fst (on_test_epoch_end s) =
  match test_content s with
  | Some c =>
      (rs <- extracted_all (combine (generated_text c) (label c)) ;;
       mae <- mean_absolute_error (map snd rs) (map fst rs) ;;
       Ok tt)
  | None => Raise (AttributeError "test_content")
  end.
Proof.
  unfold on_test_epoch_end, mbind, emit, modify. cbn [fst snd].
  now rewrite epoch_end_result.
Qed.

End Epochs.

(** X5: a whole validation (test) epoch over one batch: after the epoch
    start and a step whose [generate] gave at least one text per pair, the
    epoch end hands to [mean_absolute_error] what the pattern extracts
    from the texts, paired in order with the batch's answers. *)
Theorem epoch_over_one_batch {L : Libraries} (s : MInterface)
    (tok : Tokenizer Vocab) (m : Model) (batch : Batch) (i : Z) :
  tokenizer s = Some tok -> model s = Some m ->
  let pairs := combine (input batch) (answer batch) in
  let texts := batch_decode tok (model_generate m
                 (generate_args tok (hparams s) batch default_params)) in
  length pairs <= length texts ->
  let metric :=
    (rs <- extracted_all (combine (firstn (length pairs) texts) (map snd pairs)) ;;
     mae <- mean_absolute_error (map snd rs) (map fst rs) ;;
     Ok tt) in
  fst (on_validation_epoch_end
         (snd (validation_step batch i (snd (on_validation_epoch_start s)))))
  = metric
  /\ fst (on_test_epoch_end
            (snd (test_step batch i (snd (on_test_epoch_start s)))))
     = metric.
Proof.
  intros Htok Hm pairs texts Hlen metric. split.
  - unfold validation_step, mbind at 1, emit at 1, modify at 1. cbn [fst snd].
    destruct (step_enough "val_content" val_content set_val_content
                (fun _ _ => eq_refl) (fun _ _ => eq_refl)
                (record (Enter m_validation_step) (snd (on_validation_epoch_start s)))
                empty_content tok m batch i Htok Hm eq_refl Hlen)
      as (s' & -> & Hget).
    unfold on_validation_epoch_end, mbind, emit, modify. cbn [fst snd].
    rewrite epoch_end_result. cbn [val_content record]. rewrite Hget.
    reflexivity.
  - unfold test_step, mbind at 1, emit at 1, modify at 1. cbn [fst snd].
    destruct (step_enough "test_content" test_content set_test_content
                (fun _ _ => eq_refl) (fun _ _ => eq_refl)
                (record (Enter m_test_step) (snd (on_test_epoch_start s)))
                empty_content tok m batch i Htok Hm eq_refl Hlen)
      as (s' & -> & Hget).
    unfold on_test_epoch_end, mbind, emit, modify. cbn [fst snd].
    rewrite epoch_end_result. cbn [test_content record]. rewrite Hget.
    reflexivity.
Qed.

(** The example epoch: the model answers [<1>] to both prompts. *)
Lemma epoch_over_one_batch_witness :
  fst (on_validation_epoch_end
         (snd (validation_step Example.batch 0
                 (snd (on_validation_epoch_start Example.instance)))))
  = (rs <- extracted_all (L := Example.libraries)
             [("a<1>", "<1>"); ("bc<1>", "<2>")] ;;
     mae <- Example.mae (map snd rs) (map fst rs) ;;
     Ok tt).
Proof.
  assert (2 <= 2) as Hlen by lia.
  exact (proj1 (epoch_over_one_batch Example.instance
                  {| vocab := tt; pad_token_id := Some 0%Z; eos_token_id := Some 0%Z |}
                  _ Example.batch 0 eq_refl eq_refl Hlen)).
Defined.

(** X6: an epoch-end hook can be run again: it cleared nothing, and the
    second run returns, or raises, what the first did. *)
Theorem epoch_end_again {L : Libraries} (s : MInterface) :
  fst (on_validation_epoch_end (snd (on_validation_epoch_end s)))
  = fst (on_validation_epoch_end s)
  /\ fst (on_test_epoch_end (snd (on_test_epoch_end s)))
     = fst (on_test_epoch_end s).
Proof.
  pose proof (keeps_validation_end s) as Hv.
  pose proof (keeps_test_end s) as Ht.
  unfold attributes in Hv, Ht.
  rewrite !validation_end_result, !test_end_result.
  split; [replace (val_content (snd (on_validation_epoch_end s)))
            with (val_content s) by congruence
         |replace (test_content (snd (on_test_epoch_end s)))
            with (test_content s) by congruence]; reflexivity.
Qed.

(** ** Construction, then training *)

Section Training.

Context {L : Libraries}.

(** The instance a construction leaves. *)
Lemma construct_attributes (kargs : HParams) (tr : Trainer) :
  fst (construct kargs tr) = Ok tt
  /\ hparams (snd (construct kargs tr)) = kargs
  /\ trainer (snd (construct kargs tr)) = tr
  /\ cuda (snd (construct kargs tr)) = Device ("cuda:" ++ hp_cuda kargs)
  /\ ready (snd (construct kargs tr))
  /\ scheduler (snd (construct kargs tr)) = None
  /\ val_content (snd (construct kargs tr)) = None
  /\ test_content (snd (construct kargs tr)) = None.
Proof.
  unfold construct, __init__, load_llm, mbind, emit, modify, attr, gets, print,
    emit, modify, ret, ready.
  cbn. destruct (pad_token_id _); cbn; repeat split; eauto.
Qed.

Lemma configure_optimizers_none (s : MInterface) (m : Model) :
  model s = Some m -> lr_scheduler (hparams s) = VNone ->
  exists opt s',
    configure_optimizers s = (Ok opt, s') /\ scheduler s' = scheduler s.
Proof.
  intros Hm Hn.
  unfold configure_optimizers, mbind, emit, modify, attr, gets, ret.
  cbn. rewrite Hm. cbn. rewrite Hn. eauto.
Qed.

Lemma training_step_unset (s : MInterface) (batch : Batch) (i : Z) :
  scheduler s = None ->
  training_step batch i s =
  (Raise (AttributeError "scheduler"), record (Enter m_training_step) s).
Proof.
  intro Hs. unfold training_step, mbind, emit, modify, attr.
  cbn. now rewrite Hs.
Qed.

End Training.

(** X7: the scheduler attribute is assigned by [configure_optimizers] alone,
    and only when a scheduler is asked for.  On an instance built with
    [lr_scheduler = None], [configure_optimizers] returns its optimizer and
    the first [training_step] raises [AttributeError] at
    [if self.scheduler:], before the model is run; the same holds right
    after the construction. *)
Theorem training_without_scheduler {L : Libraries} (kargs : HParams)
    (tr : Trainer) (batch : Batch) (i : Z) :
  let s0 := snd (construct kargs tr) in
  training_step batch i s0 =
    (Raise (AttributeError "scheduler"), record (Enter m_training_step) s0)
  /\ (lr_scheduler kargs = VNone ->
      exists opt,
        fst (configure_optimizers s0) = Ok opt
        /\ training_step batch i (snd (configure_optimizers s0)) =
           (Raise (AttributeError "scheduler"),
            record (Enter m_training_step) (snd (configure_optimizers s0)))).
Proof.
  intro s0.
  destruct (construct_attributes kargs tr)
    as (_ & Hhp & _ & _ & (tok & m & _ & Hm) & Hsch & _).
  fold s0 in Hhp, Hm, Hsch.
  split; [now apply training_step_unset|].
  intro Hnone. rewrite <- Hhp in Hnone.
  destruct (configure_optimizers_none s0 m Hm Hnone) as (opt & s' & Hrun & Hs').
  exists opt. rewrite Hrun. cbn [fst snd]. split; [reflexivity|].
  apply training_step_unset. congruence.
Qed.

(** The example hyper-parameters without a scheduler. *)
Lemma training_without_scheduler_witness :
  let kargs :=
    {| hp_cuda := "0"; lr := float_of_ratio 1 1000; lr_scheduler := VNone;
       lr_decay_min_lr := float_of_ratio 1 100000;
       lr_warmup_start_lr := float_of_ratio 1 1000000;
       weight_decay := None; max_input_length := 8; max_gen_length := 4;
       batch_size := 2 |} in
  let s0 := snd (construct (L := Example.libraries) kargs Example.fit) in
  exists opt,
    fst (configure_optimizers s0) = Ok opt
    /\ training_step Example.batch 0 (snd (configure_optimizers s0)) =
       (Raise (AttributeError "scheduler"),
        record (Enter m_training_step) (snd (configure_optimizers s0))).
Proof.
  intros kargs s0.
  exact (proj2 (@training_without_scheduler Example.libraries kargs Example.fit
                  Example.batch 0) eq_refl).
Defined.

(** X8: [training_step] on an instance with a scheduler: the scheduler is
    stepped once with the trainer's counters; when the loss is free of NaN
    and infinity the step returns the very loss of [forward] and logs
    ['loss'], ['lr'] (of the stepped scheduler's first parameter group) and
    ['global_step_num'], in this order; otherwise it leaves through
    [sys.exit()] with nothing logged. *)
Theorem training_step_logs {L : Libraries} (s : MInterface) (batch : Batch)
    (i : Z) (sc : Scheduler Params) (tok : Tokenizer Vocab) (m : Model)
    (labels : itensor) (g : ParamGroup Params) (gs : list (ParamGroup Params)) :
  scheduler s = Some (Some sc) -> tokenizer s = Some tok -> model s = Some m ->
  let enc := tokenizer_call tok
               (map (fun p => Pair (fst p) (snd p))
                    (combine (input batch) (answer batch)))
               (max_input_length (hparams s)) in
  target_ids_of (pad_token_id tok) (input_ids enc) (token_type_ids enc) = Ok labels ->
  let tr := trainer s in
  let sc' := scheduler_step sc (global_step tr) (current_epoch tr) (max_steps tr) in
  param_groups (optimizer sc') = g :: gs ->
  let lm_loss := model_loss m (input_ids enc) (attention_mask enc) labels in
  let out := training_step batch i s in
  let ran := [Enter m_training_step; Enter m_forward;
              RunModel (input_ids enc) (attention_mask enc) labels] in
  scheduler (snd out) = Some (Some sc')
  /\ (~ Exists nan_or_inf lm_loss ->
      fst out = Ok lm_loss
      /\ trace (snd out) =
         trace s ++ ran ++ [Log "loss" (LTensor lm_loss); Log "lr" (LFloat (pg_lr g));
                            Log "global_step_num" (LInt (global_step tr))])
  /\ (Exists nan_or_inf lm_loss ->
      fst out = Raise SystemExit
      /\ trace (snd out) = trace s ++ ran ++ [Print "!!!!"]).
Proof.
  intros Hsch Htok Hm enc Hl tr sc' Hg lm_loss out ran.
  assert (out =
          if has_nan_or_inf lm_loss then
            (Raise SystemExit,
             record (Print "!!!!")
               (record (RunModel (input_ids enc) (attention_mask enc) labels)
                  (record (Enter m_forward)
                     (set_scheduler (Some sc') (record (Enter m_training_step) s)))))
          else
            (Ok lm_loss,
             record (Log "global_step_num" (LInt (global_step tr)))
               (record (Log "lr" (LFloat (pg_lr g)))
                  (record (Log "loss" (LTensor lm_loss))
                     (record (RunModel (input_ids enc) (attention_mask enc) labels)
                        (record (Enter m_forward)
                           (set_scheduler (Some sc')
                              (record (Enter m_training_step) s)))))))) as ->.
  { subst out. unfold training_step, mbind at 1 2 3 4, emit at 1, modify at 1 2,
      attr at 1, gets at 1.
    cbn [fst snd scheduler record]. rewrite Hsch. cbn [fst snd trainer record].
    fold tr sc'. unfold mbind at 1.
    rewrite (forward_run (set_scheduler (Some sc') (record (Enter m_training_step) s))
               batch tok m labels Htok Hm Hl).
    cbn [hparams set_scheduler record]. fold enc. fold lm_loss.
    destruct (has_nan_or_inf lm_loss); [reflexivity|].
    unfold mbind, log, emit, modify, attr, lift, ret, configure_loss.
    cbn. rewrite Hg. reflexivity. }
  rewrite <- has_nan_or_inf_iff.
  destruct (has_nan_or_inf lm_loss); cbn; rewrite <- ?app_assoc;
    repeat split; intros; congruence || reflexivity.
Qed.

(** A step on the example instance after [configure_optimizers]. *)
Lemma training_step_logs_witness :
  let s := snd (configure_optimizers Example.instance) in
  exists lm_loss lr,
    fst (training_step Example.batch 0 s) = Ok lm_loss
    /\ trace (snd (training_step Example.batch 0 s)) =
       trace s
       ++ [Enter m_training_step; Enter m_forward;
           RunModel [[0; 0; 0; 0; 97; 60; 49; 62]; [0; 0; 0; 98; 99; 60; 50; 62]]%Z
                    [[0; 0; 0; 0; 1; 1; 1; 1]; [0; 0; 0; 1; 1; 1; 1; 1]]%Z
                    [[-100; -100; -100; -100; -100; 60; 49; 62];
                     [-100; -100; -100; -100; -100; 60; 50; 62]]%Z]
       ++ [Log "loss" (LTensor lm_loss); Log "lr" (LFloat lr);
           Log "global_step_num" (LInt 0)].
Proof.
  intro s.
  pose proof (training_step_logs s Example.batch 0 _
                {| vocab := tt; pad_token_id := Some 0%Z; eos_token_id := Some 0%Z |}
                _ [[-100; -100; -100; -100; -100; 60; 49; 62];
                   [-100; -100; -100; -100; -100; 60; 50; 62]]%Z
                _ [] eq_refl eq_refl eq_refl eq_refl eq_refl) as (_ & Hok & _).
  eexists. eexists. apply Hok.
  intro H. apply Exists_exists in H as (x & [<-|[]] & [Hx|[sg Hx]]); discriminate.
Defined.

(** ** The instances of a run *)

Section Runs.

Context {L : Libraries}.

Lemma after_snd {A} (c : M A) (s s' : MInterface) :
  after c s = Some s' -> s' = snd (c s) /\ exists a, fst (c s) = Ok a.
Proof.
  unfold after. destruct (c s) as [[a|e] s1]; [|discriminate].
  intro E. injection E as <-. split; [reflexivity | eexists; reflexivity].
Qed.

Lemma after_ok {A} (c : M A) (s : MInterface) (a : A) :
  fst (c s) = Ok a -> after c s = Some (snd (c s)).
Proof. unfold after. destruct (c s) as [[x|e] s']; [reflexivity | discriminate]. Qed.

Lemma construct_pair (kargs : HParams) (tr : Trainer) :
  construct kargs tr = (Ok tt, snd (construct kargs tr)).
Proof.
  destruct (construct_attributes kargs tr) as (H & _).
  destruct (construct kargs tr) as [r s]. cbn [fst snd] in *. now subst r.
Qed.

Section Unset.

Variable name : string.
Variable get : MInterface -> option Content.
Variable set : Content -> MInterface -> MInterface.
Hypothesis get_set : forall c s, get (set c s) = Some c.
Hypothesis get_record : forall e s, get (record e s) = get s.

(** The loop on an instance without content: the first turn raises. *)
Lemma store_unset (texts : list string) (b : nat) (pairs : list (string * string))
    (s : MInterface) :
  get s = None ->
  store name get set texts b pairs s =
  match pairs with
  | [] => (Ok tt, s)
  | _ :: _ => (Raise (AttributeError name), s)
  end.
Proof.
  intro Hc. destruct pairs as [|[prompt ans] pairs]; [reflexivity|].
  cbn [store]. unfold mbind, attr. now rewrite Hc.
Qed.

Lemma step_unset (s : MInterface) (tok : Tokenizer Vocab) (m : Model)
    (batch : Batch) (i : Z) :
  tokenizer s = Some tok -> model s = Some m -> get s = None ->
  combine (input batch) (answer batch) <> [] ->
  fst (step name get set batch i s) = Raise (AttributeError name).
Proof.
  intros Htok Hm Hc Hpairs.
  unfold step, mbind. rewrite (generate_run s batch default_params tok m Htok Hm).
  cbv zeta. rewrite store_unset by now rewrite !get_record.
  destruct (combine _ _); [now elim Hpairs | reflexivity].
Qed.

(** A step that returns leaves lists of one length as it found them. *)
Lemma step_aligned (s s' : MInterface) (batch : Batch) (i : Z) :
  ready s -> content_aligned (get s) ->
  after (step name get set batch i) s = Some s' ->
  content_aligned (get s').
Proof.
  intros (tok & m & Htok & Hm) Hal Hafter.
  unfold after, step, mbind in Hafter.
  rewrite (generate_run s batch default_params tok m Htok Hm) in Hafter.
  cbv zeta in Hafter.
  set (texts := batch_decode tok _) in Hafter.
  set (s1 := record _ _) in Hafter.
  set (pairs := combine (input batch) (answer batch)) in Hafter.
  assert (get s1 = get s) as Hs1 by (unfold s1; now rewrite !get_record).
  destruct (get s) as [c|] eqn:Hc.
  - destruct (Nat.le_gt_cases (length pairs) (length texts)) as [Hlen|Hlen].
    + destruct (store_enough name get set get_set texts pairs 0 s1 c Hs1 Hlen)
        as (s2 & Hrun & Hget).
      rewrite Hrun in Hafter. injection Hafter as <-. rewrite Hget.
      apply aligned_extended; [exact Hal| |];
        unfold taken; rewrite length_map, length_firstn; cbn [skipn]; lia.
    + destruct (store_short name get set get_set texts pairs 0 s1 c Hs1
                  (Nat.le_0_l _) Hlen) as (s2 & Hrun & _).
      rewrite Hrun in Hafter. discriminate.
  - rewrite (store_unset texts 0 pairs s1 Hs1) in Hafter.
    destruct pairs; [|discriminate].
    injection Hafter as <-. now rewrite Hs1.
Qed.

End Unset.

Lemma validation_step_aligned (s s' : MInterface) (batch : Batch) (i : Z) :
  ready s -> content_aligned (val_content s) ->
  after (validation_step batch i) s = Some s' ->
  content_aligned (val_content s').
Proof.
  intros Hr Hv Ha.
  apply (step_aligned "val_content" val_content set_val_content
           (fun _ _ => eq_refl) (fun _ _ => eq_refl)
           (record (Enter m_validation_step) s) s' batch i); assumption.
Qed.

Lemma test_step_aligned (s s' : MInterface) (batch : Batch) (i : Z) :
  ready s -> content_aligned (test_content s) ->
  after (test_step batch i) s = Some s' ->
  content_aligned (test_content s').
Proof.
  intros Hr Ht Ha.
  apply (step_aligned "test_content" test_content set_test_content
           (fun _ _ => eq_refl) (fun _ _ => eq_refl)
           (record (Enter m_test_step) s) s' batch i); assumption.
Qed.

Lemma quiet_validation_start : quiet on_validation_epoch_start.
Proof.
  unfold on_validation_epoch_start.
  apply quiet_bind; [now apply quiet_emit|]. intros _. now apply quiet_modify.
Qed.

Lemma quiet_test_start : quiet on_test_epoch_start.
Proof.
  unfold on_test_epoch_start.
  apply quiet_bind; [now apply quiet_emit|]. intros _. now apply quiet_modify.
Qed.

Lemma quiet_validation_end : quiet on_validation_epoch_end.
Proof.
  unfold on_validation_epoch_end.
  apply quiet_bind; [now apply quiet_emit|]. intros _. apply quiet_epoch_end.
Qed.

Lemma quiet_test_end : quiet on_test_epoch_end.
Proof.
  unfold on_test_epoch_end.
  apply quiet_bind; [now apply quiet_emit|]. intros _. apply quiet_epoch_end.
Qed.

Lemma construct_calls (kargs : HParams) (tr : Trainer) :
  calls m_load_llm (trace (snd (construct kargs tr))) = 1.
Proof.
  destruct (construct_trace kargs tr) as (rest & -> & H0).
  change (Enter m_init :: Enter m_load_llm :: rest)
    with ([Enter m_init; Enter m_load_llm] ++ rest).
  rewrite calls_app, H0. reflexivity.
Qed.

End Runs.

(** X9: a hook that runs before its epoch started finds no content: the
    epoch end raises [AttributeError], and so does a step over at least
    one pair, after the texts were generated.  A freshly built instance is
    in this state. *)
Theorem hooks_before_epoch_start {L : Libraries} (s : MInterface) :
  ready s ->
  (val_content s = None ->
   fst (on_validation_epoch_end s) = Raise (AttributeError "val_content")
   /\ forall batch i,
       combine (input batch) (answer batch) <> [] ->
       fst (validation_step batch i s) = Raise (AttributeError "val_content"))
  /\ (test_content s = None ->
      fst (on_test_epoch_end s) = Raise (AttributeError "test_content")
      /\ forall batch i,
          combine (input batch) (answer batch) <> [] ->
          fst (test_step batch i s) = Raise (AttributeError "test_content")).
Proof.
  intros (tok & m & Htok & Hm). split; intro Hc; split.
  - rewrite validation_end_result. now rewrite Hc.
  - intros batch i Hpairs. unfold validation_step, mbind, emit, modify.
    cbn [fst snd].
    pose proof (step_unset "val_content" val_content set_val_content
                  (fun _ _ => eq_refl)
                  (record (Enter m_validation_step) s) tok m batch i Htok Hm Hc Hpairs)
      as H.
    destruct (step _ _ _ _ _ _) as [r s']. cbn [fst] in *. now subst r.
  - rewrite test_end_result. now rewrite Hc.
  - intros batch i Hpairs. unfold test_step, mbind, emit, modify.
    cbn [fst snd].
    pose proof (step_unset "test_content" test_content set_test_content
                  (fun _ _ => eq_refl)
                  (record (Enter m_test_step) s) tok m batch i Htok Hm Hc Hpairs)
      as H.
    destruct (step _ _ _ _ _ _) as [r s']. cbn [fst] in *. now subst r.
Qed.

(** The freshly built example instance. *)
Lemma hooks_before_epoch_start_witness :
  fst (on_validation_epoch_end Example.instance)
  = Raise (AttributeError "val_content")
  /\ fst (validation_step Example.batch 0 Example.instance)
     = Raise (AttributeError "val_content").
Proof.
  assert (ready Example.instance) as Hr by (eexists; eexists; split; reflexivity).
  destruct (proj1 (hooks_before_epoch_start Example.instance Hr) eq_refl)
    as (Hend & Hstep).
  split; [exact Hend|]. apply Hstep. discriminate.
Defined.

Lemma attributes_parts {L : Libraries} (s1 s0 : MInterface) :
  attributes s1 = attributes s0 ->
  (assigned_once s1, val_content s1, test_content s1)
  = (assigned_once s0, val_content s0, test_content s0).
Proof. unfold attributes, assigned_once. intro K. injection K. congruence. Qed.

(** From what a method keeps to the parts of the invariant. *)
Ltac kept K :=
  let K1 := fresh in
  let K2 := fresh in
  let K3 := fresh in
  cbv beta in K;
  try apply attributes_parts in K;
  apply pair_equal_spec in K as [K1 K3];
  apply pair_equal_spec in K1 as [K1 K2];
  first [ congruence
        | rewrite K2; assumption
        | rewrite K3; assumption ].

(** X10: in every instance of a run (the construction, then calls that
    returned, the trainer moving on in between) the hyper-parameters, the
    device, the tokenizer and the model are those of the construction,
    [load_llm] was entered exactly once, and the three lists of each
    content have one length. *)
Theorem run_invariant {L : Libraries} (kargs : HParams) (tr : Trainer)
    (s : MInterface) :
  reachable kargs tr s ->
  assigned_once s = assigned_once (snd (construct kargs tr))
  /\ hparams s = kargs
  /\ cuda s = Device ("cuda:" ++ hp_cuda kargs)
  /\ ready s
  /\ calls m_load_llm (trace s) = 1
  /\ content_aligned (val_content s)
  /\ content_aligned (test_content s).
Proof.
  assert (forall s, assigned_once s = assigned_once (snd (construct kargs tr)) ->
                    hparams s = kargs
                    /\ cuda s = Device ("cuda:" ++ hp_cuda kargs) /\ ready s) as Hfix.
  { intros s0 E.
    destruct (construct_attributes kargs tr)
      as (_ & Hhp & _ & Hcuda & (tok & m & Htok & Hm) & _).
    unfold assigned_once in E. injection E as E1 E2 E3 E4.
    repeat split; try congruence. exists tok, m. split; congruence. }
  assert (forall s, assigned_once s = assigned_once (snd (construct kargs tr)) ->
            calls m_load_llm (trace s) = 1 ->
            content_aligned (val_content s) -> content_aligned (test_content s) ->
            assigned_once s = assigned_once (snd (construct kargs tr))
            /\ hparams s = kargs
            /\ cuda s = Device ("cuda:" ++ hp_cuda kargs)
            /\ ready s
            /\ calls m_load_llm (trace s) = 1
            /\ content_aligned (val_content s)
            /\ content_aligned (test_content s)) as Hpack.
  { intros s0 E Hc Hv Ht. destruct (Hfix s0 E) as (H1 & H2 & H3). tauto. }
  induction 1 as [s0 Hs0 | s0 tr' _ IH
                  | s0 s1 _ IH Ha | s0 s1 batch i _ IH Ha | s0 s1 batch _ IH Ha
                  | s0 s1 batch p _ IH Ha
                  | s0 s1 _ IH Ha | s0 s1 batch i _ IH Ha | s0 s1 _ IH Ha
                  | s0 s1 _ IH Ha | s0 s1 batch i _ IH Ha | s0 s1 _ IH Ha];
    try (destruct IH as (E & _ & _ & Hr & Hc & Hv & Ht);
         try (apply after_snd in Ha as Ha'; destruct Ha' as (-> & _))).
  - assert (s0 = snd (construct kargs tr)) as -> by now rewrite Hs0.
    destruct (construct_attributes kargs tr) as (_ & _ & _ & _ & _ & _ & Hv & Ht).
    apply Hpack; [reflexivity | apply construct_calls | now rewrite Hv | now rewrite Ht].
  - apply Hpack; assumption.
  - pose proof (keeps_configure_optimizers s0) as K.
    apply Hpack; [kept K | now rewrite quiet_configure_optimizers | kept K | kept K].
  - pose proof (keeps_training_step batch i s0) as K.
    apply Hpack; [kept K | now rewrite quiet_training_step | kept K | kept K].
  - pose proof (keeps_forward batch s0) as K.
    apply Hpack; [kept K | now rewrite quiet_forward | kept K | kept K].
  - pose proof (keeps_generate batch p s0) as K.
    apply Hpack; [kept K | now rewrite quiet_generate | kept K | kept K].
  - pose proof (keeps_validation_start s0) as K.
    apply Hpack; [kept K | now rewrite quiet_validation_start
                 | cbn; split; reflexivity | kept K].
  - pose proof (keeps_validation_step batch i s0) as K.
    apply Hpack; [kept K | now rewrite quiet_validation_step | | kept K].
    exact (validation_step_aligned s0 _ batch i Hr Hv Ha).
  - pose proof (keeps_validation_end s0) as K.
    apply Hpack; [kept K | now rewrite quiet_validation_end | kept K | kept K].
  - pose proof (keeps_test_start s0) as K.
    apply Hpack; [kept K | now rewrite quiet_test_start
                 | kept K | cbn; split; reflexivity].
  - pose proof (keeps_test_step batch i s0) as K.
    apply Hpack; [kept K | now rewrite quiet_test_step | kept K |].
    exact (test_step_aligned s0 _ batch i Hr Ht Ha).
  - pose proof (keeps_test_end s0) as K.
    apply Hpack; [kept K | now rewrite quiet_test_end | kept K | kept K].
Qed.

(** A run on the example: construction, epoch start, one step. *)
Lemma run_invariant_witness :
  reachable Example.kargs Example.fit Example.validated
  /\ calls m_load_llm (trace Example.validated) = 1
  /\ content_aligned (val_content Example.validated).
Proof.
  assert (reachable Example.kargs Example.fit Example.validated) as Hr.
  { apply reach_validation_step
      with (s := snd (on_validation_epoch_start Example.instance))
           (batch := Example.batch) (i := 0%Z).
    - apply reach_on_validation_epoch_start with (s := Example.instance).
      + apply reach_construct. apply construct_pair.
      + apply (after_ok on_validation_epoch_start Example.instance tt). reflexivity.
    - apply (after_ok (validation_step Example.batch 0)
               (snd (on_validation_epoch_start Example.instance)) tt).
      reflexivity. }
  split; [exact Hr|].
  pose proof (run_invariant Example.kargs Example.fit Example.validated Hr)
    as (_ & _ & _ & _ & Hc & Hv & _).
  split; assumption.
Defined.

(** ** Labels without an answer segment *)

Lemma same_shape_at2 {A B} (a : list (list A)) (b : list (list B))
    (i j : nat) (x : A) :
  same_shape a b -> at2 a i j = Some x -> exists y, at2 b i j = Some y.
Proof.
  intro H. revert i. induction H as [|r1 r2 a b E _ IH]; intros [|i] Hx;
    unfold at2 in *; cbn [nth_error] in *; try discriminate.
  - destruct (nth_error r2 j) as [y|] eqn:Hy; [eauto|].
    apply nth_error_None in Hy.
    assert (nth_error r1 j <> None) as Hn by congruence.
    apply nth_error_Some in Hn. lia.
  - now apply IH.
Qed.

Lemma all_zero_at2 (t : itensor) :
  forallb (forallb (Z.eqb 0)) t = true ->
  forall i j x, at2 t i j = Some x -> x = 0%Z.
Proof.
  intros H i j x Hx. unfold at2 in Hx.
  destruct (nth_error t i) as [row|] eqn:Hrow; [|discriminate].
  rewrite forallb_forall in H.
  pose proof (H row (nth_error_In _ _ Hrow)) as Hr.
  rewrite forallb_forall in Hr.
  symmetry. apply Z.eqb_eq, Hr. eapply nth_error_In; eassumption.
Qed.

(** X11: when the tokenizer marks every position with token type 0, as a
    tokenizer without segment ids does, every label [forward] hands to the
    model is -100: the model is run with no position to learn from. *)
Theorem forward_without_segments {L : Libraries} (s : MInterface)
    (batch : Batch) (tok : Tokenizer Vocab) (m : Model) (pad : Z) :
  tokenizer s = Some tok -> model s = Some m -> pad_token_id tok = Some pad ->
  let enc := tokenizer_call tok
               (map (fun p => Pair (fst p) (snd p))
                    (combine (input batch) (answer batch)))
               (max_input_length (hparams s)) in
  same_shape (input_ids enc) (token_type_ids enc) ->
  (forall i j t, at2 (token_type_ids enc) i j = Some t -> t = 0%Z) ->
  exists labels tail,
    trace (snd (forward batch s)) =
      trace s ++ Enter m_forward
              :: RunModel (input_ids enc) (attention_mask enc) labels :: tail
    /\ same_shape labels (input_ids enc)
    /\ forall i j x, at2 labels i j = Some x -> x = (-100)%Z.
Proof.
  intros Htok Hm Hpad enc Hshape Hzero.
  destruct (target_ids_of_same pad _ _ Hshape) as (labels & Hl & Hs & Hat).
  rewrite <- Hpad in Hl.
  exists labels.
  rewrite (forward_run s batch tok m labels Htok Hm Hl). fold enc.
  assert (forall i j x, at2 labels i j = Some x -> x = (-100)%Z) as Hall.
  { intros i j x Hx.
    destruct (same_shape_at2 _ _ i j x Hs Hx) as (y & Hy).
    destruct (same_shape_at2 _ _ i j y Hshape Hy) as (t & Ht).
    rewrite (Hat i j y t Hy Ht) in Hx. injection Hx as <-.
    rewrite (Hzero i j t Ht). unfold label_of.
    now rewrite Z.eqb_refl, orb_true_r. }
  destruct (has_nan_or_inf _); eexists; (split; [|split; [exact Hs | exact Hall]]);
    cbn [snd record trace]; rewrite <- ?app_assoc; reflexivity.
Qed.

(** A batch of prompts with empty answers has no position of type 1. *)
Lemma forward_without_segments_witness :
  let batch := {| input := ["a"; "bc"]; answer := [""; ""] |} in
  exists labels tail,
    trace (snd (forward batch Example.instance)) =
      trace Example.instance
      ++ Enter m_forward
      :: RunModel [[0; 0; 0; 0; 0; 0; 0; 97]; [0; 0; 0; 0; 0; 0; 98; 99]]%Z
                  [[0; 0; 0; 0; 0; 0; 0; 1]; [0; 0; 0; 0; 0; 0; 1; 1]]%Z
                  labels :: tail
    /\ same_shape labels [[0; 0; 0; 0; 0; 0; 0; 97]; [0; 0; 0; 0; 0; 0; 98; 99]]%Z
    /\ forall i j x, at2 labels i j = Some x -> x = (-100)%Z.
Proof.
  intro batch.
  refine (forward_without_segments Example.instance batch
            {| vocab := tt; pad_token_id := Some 0%Z; eos_token_id := Some 0%Z |}
            _ 0%Z eq_refl eq_refl eq_refl _ _).
  - vm_compute. repeat constructor.
  - apply all_zero_at2. reflexivity.
Defined.

(** ** More on the pattern *)

Module ReLines.

Import Re ReFacts.

Lemma append_assoc (a b c : string) :
  ((a ++ b) ++ c = a ++ (b ++ c))%string.
Proof. induction a as [|x a IH]; cbn; [reflexivity | now rewrite IH]. Qed.

Lemma length_append (a b : string) :
  String.length (a ++ b) = String.length a + String.length b.
Proof. induction a as [|x a IH]; cbn; [reflexivity | now rewrite IH]. Qed.

(** A group ends before the line does. *)
Lemma lazy_group_line (a b : string) :
  lazy_group (a ++ String newline b) =
  match lazy_group a with
  | Some (g, rest) => Some (g, (rest ++ String newline b)%string)
  | None => None
  end.
Proof.
  induction a as [|c a IH]; cbn [append lazy_group].
  - reflexivity.
  - destruct (Ascii.eqb c gt_sign); [reflexivity|].
    destruct (Ascii.eqb c newline); [reflexivity|].
    rewrite IH. now destruct (lazy_group a) as [[g rest]|].
Qed.

Lemma lazy_group_shorter (s g rest : string) :
  lazy_group s = Some (g, rest) -> String.length rest < String.length s.
Proof.
  intro H. apply lazy_group_Some in H as (-> & _).
  rewrite length_append. cbn. lia.
Qed.

Lemma findall_lines_bounded (n : nat) :
  forall a b, String.length a <= n ->
    findall (a ++ String newline b) = findall a ++ findall b.
Proof.
  induction n as [|n IH]; intros a b Hn.
  - destruct a; [|cbn in Hn; lia]. cbn [append]. now rewrite findall_String.
  - destruct a as [|c a]; [cbn [append]; now rewrite findall_String|].
    cbn [append]. rewrite !findall_String, lazy_group_line.
    cbn in Hn.
    destruct (Ascii.eqb c lt_sign); [|apply IH; lia].
    destruct (lazy_group a) as [[g rest]|] eqn:Hg; [|apply IH; lia].
    apply lazy_group_shorter in Hg. cbn [app]. f_equal. apply IH. lia.
Qed.

Lemma findall_groups_bounded (n : nat) :
  forall s g, String.length s <= n -> In g (findall s) ->
    exists pre post,
      s = (pre ++ String lt_sign (g ++ String gt_sign post))%string
      /\ ~ occurs gt_sign g /\ ~ occurs newline g.
Proof.
  induction n as [|n IH]; intros s g Hn Hin.
  - destruct s; [contradiction | cbn in Hn; lia].
  - destruct (findall s) as [|g0 gs] eqn:Hs; [contradiction|].
    destruct (findall_cons_inv s g0 gs Hs)
      as (pre & post & -> & _ & Hgt & Hnl & ->).
    destruct Hin as [<-|Hin]; [eauto|].
    rewrite !length_append in Hn. cbn in Hn. rewrite length_append in Hn. cbn in Hn.
    destruct (IH post g) as (pre' & post' & -> & Hgt' & Hnl'); [lia | exact Hin |].
    exists (pre ++ String lt_sign (g0 ++ String gt_sign pre'))%string, post'.
    split; [|tauto].
    rewrite !append_assoc. cbn [append]. rewrite !append_assoc. reflexivity.
Qed.

Lemma last_app_cons {A} (l1 l2 : list A) (x y : A) :
  last (l1 ++ y :: l2) x = last l2 y.
Proof.
  induction l1 as [|z l1 IH].
  - cbn [app]. destruct l2 as [|w l2]; [reflexivity|].
    change (last (w :: l2) x = last (w :: l2) y). apply last_default.
  - cbn [app]. rewrite <- IH.
    destruct (l1 ++ y :: l2) eqn:E; [now destruct l1 | reflexivity].
Qed.

Lemma last_app {A} (l1 l2 : list A) :
  match l1 ++ l2 with [] => None | g :: gs => Some (last gs g) end =
  match l2 with
  | [] => match l1 with [] => None | g :: gs => Some (last gs g) end
  | g :: gs => Some (last gs g)
  end.
Proof.
  destruct l2 as [|y l2]; [now rewrite app_nil_r|].
  destruct l1 as [|x l1]; [reflexivity|].
  cbn [app]. f_equal. apply last_app_cons.
Qed.

End ReLines.

(** X12: every group the pattern returns stood between a [<] and a [>] of
    the text and holds neither [>] nor a line feed. *)
Theorem findall_groups (s g : string) :
  In g (Re.findall s) ->
  exists pre post,
    s = (pre ++ String Re.lt_sign (g ++ String Re.gt_sign post))%string
    /\ ~ Re.occurs Re.gt_sign g /\ ~ Re.occurs Re.newline g.
Proof. apply (ReLines.findall_groups_bounded (String.length s)). lia. Qed.

Lemma findall_groups_witness :
  exists pre post,
    "say <a<b> now" = (pre ++ String Re.lt_sign ("a<b" ++ String Re.gt_sign post))%string
    /\ ~ Re.occurs Re.gt_sign "a<b" /\ ~ Re.occurs Re.newline "a<b".
Proof.
  apply (findall_groups "say <a<b> now" "a<b"). left. reflexivity.
Defined.

(** X13: the pattern works line by line: what it finds in a text is what
    it finds in the lines before a line feed followed by what it finds
    after it.  So the prediction, the last group, comes from the last
    line that holds a match. *)
Theorem findall_lines (a b : string) :
  Re.findall (a ++ String Re.newline b) = Re.findall a ++ Re.findall b
  /\ last_group (a ++ String Re.newline b) =
     match last_group b with
     | Some g => Some g
     | None => last_group a
     end.
Proof.
  assert (Re.findall (a ++ String Re.newline b) = Re.findall a ++ Re.findall b) as H
    by (apply (ReLines.findall_lines_bounded (String.length a)); lia).
  split; [exact H|].
  unfold last_group. rewrite H, ReLines.last_app.
  now destruct (Re.findall b).
Qed.

(** ** The epoch-end loop, failing and succeeding *)

Section Loop.

Context {L : Libraries}.

Lemma extracted_all_first_failure (good rest : list (string * string))
    (predict lab : string) (e : exn) :
  Forall (fun p => exists x, extracted (fst p) (snd p) = Ok x) good ->
  extracted predict lab = Raise e ->
  extracted_all (good ++ (predict, lab) :: rest) = Raise e.
Proof.
  intros Hgood He. induction Hgood as [|[p l] good (x & Hx) _ IH].
  - cbn [app extracted_all]. now rewrite He.
  - cbn [app extracted_all]. cbn [fst snd] in Hx. rewrite Hx. cbn [Py.bind].
    now rewrite IH.
Qed.

Lemma extracted_kinds (predict lab : string) (x : number * number) :
  extracted predict lab = Ok x ->
  (fst x = Int 0 \/ exists f, fst x = Float f) /\ exists f, snd x = Float f.
Proof.
  unfold extracted.
  destruct (last_group predict) as [g|]; [|discriminate].
  destruct (first_group lab) as [h|]; [|discriminate].
  destruct (py_float h) as [v|]; [|discriminate].
  intro E. injection E as <-. cbn [fst snd].
  destruct (py_float g); eauto.
Qed.

Lemma extracted_all_kinds (pairs : list (string * string))
    (rs : list (number * number)) :
  extracted_all pairs = Ok rs ->
  length rs = length pairs
  /\ Forall (fun y => y = Int 0 \/ exists f, y = Float f) (map fst rs)
  /\ Forall (fun y => exists f, y = Float f) (map snd rs).
Proof.
  revert rs. induction pairs as [|[p l] pairs IH]; intros rs H.
  - injection H as <-. repeat split; constructor.
  - cbn [extracted_all] in H.
    destruct (extracted p l) as [x|e] eqn:Hx; [|discriminate].
    cbn [Py.bind] in H.
    destruct (extracted_all pairs) as [xs|e]; [|discriminate].
    injection H as <-.
    destruct (IH xs eq_refl) as (Hlen & Hp & Ht).
    destruct (extracted_kinds p l x Hx) as (Hf & Hs).
    cbn [length map]. repeat split; [congruence | |]; constructor; assumption.
Qed.

End Loop.

(** X14: the epoch-end loop stops at the first pair it cannot extract: the
    hook raises that pair's exception, hands nothing to
    [mean_absolute_error] and logs no metric, whatever the later pairs
    are. *)
Theorem epoch_end_first_failure {L : Libraries} (s : MInterface) (c : Content)
    (good rest : list (string * string)) (predict lab : string) (e : exn) :
  combine (generated_text c) (label c) = good ++ (predict, lab) :: rest ->
  Forall (fun p => exists x, extract (fst p) (snd p) = Ok x) good ->
  extract predict lab = Raise e ->
  (val_content s = Some c ->
   on_validation_epoch_end s =
   (Raise e, record (Enter m_on_validation_epoch_end) s))
  /\ (test_content s = Some c ->
      on_test_epoch_end s = (Raise e, record (Enter m_on_test_epoch_end) s)).
Proof.
  intros Hpairs Hgood He.
  assert (extracted_all (combine (generated_text c) (label c)) = Raise e) as Hall.
  { rewrite Hpairs. apply extracted_all_first_failure.
    - eapply Forall_impl; [|exact Hgood]. intros p (x & Hx).
      exists x. now rewrite <- extract_extracted.
    - now rewrite <- extract_extracted. }
  split; intro Hc.
  - unfold on_validation_epoch_end, mbind, emit, modify.
    now rewrite (epoch_end_run "val_content" val_content
                   (record (Enter m_on_validation_epoch_end) s) c Hc), Hall.
  - unfold on_test_epoch_end, mbind, emit, modify.
    now rewrite (epoch_end_run "test_content" test_content
                   (record (Enter m_on_test_epoch_end) s) c Hc), Hall.
Qed.

(** Three collected pairs, the second without a number in its label. *)
Lemma epoch_end_first_failure_witness :
  let c := {| c_input := ["a"; "b"; "c"];
              generated_text := ["a<1>"; "b<2>"; "c"];
              label := ["<1>"; "<two>"; "<3>"] |} in
  let s := set_val_content c Example.instance in
  on_validation_epoch_end s =
  (Raise (ValueError "could not convert string to float"),
   record (Enter m_on_validation_epoch_end) s).
Proof.
  intros c s.
  refine (proj1 (epoch_end_first_failure s c [("a<1>", "<1>")] [("c", "<3>")]
                   "b<2>" "<two>" _ eq_refl _ eq_refl) eq_refl).
  constructor; [|constructor]. eexists. reflexivity.
Defined.

(** X15: when the epoch-end loop succeeds, [y_true] and [y_pre] have one
    entry per collected pair, so [mean_absolute_error] never gets lists of
    different lengths; every reference is a float, every prediction a
    float or the integer 0. *)
Theorem extract_all_lists {L : Libraries} (pairs : list (string * string))
    (y_true y_pre : list number) :
  extract_all pairs [] [] = Ok (y_true, y_pre) ->
  length y_true = length pairs
  /\ length y_pre = length pairs
  /\ Forall (fun y => exists f, y = Float f) y_true
  /\ Forall (fun y => y = Int 0 \/ exists f, y = Float f) y_pre.
Proof.
  rewrite extract_all_extracted.
  destruct (extracted_all pairs) as [rs|e] eqn:Hrs; [|discriminate].
  intro E. injection E as <- <-. cbn [app].
  destruct (extracted_all_kinds pairs rs Hrs) as (Hlen & Hp & Ht).
  rewrite !length_map. tauto.
Qed.

Lemma extract_all_lists_witness :
  length [Float (float_of_int 1); Float (float_of_int 2)] = 2
  /\ length [Float (float_of_int 1); Int 0] = 2
  /\ Forall (fun y => exists f, y = Float f)
       [Float (float_of_int 1); Float (float_of_int 2)]
  /\ Forall (fun y => y = Int 0 \/ exists f, y = Float f)
       [Float (float_of_int 1); Int 0].
Proof.
  exact (@extract_all_lists Example.libraries
           [("a<1>", "<1>"); ("b<x>", "<2>")] _ _ eq_refl).
Defined.

(** A [<] left open on an earlier line starts no match. *)
Lemma findall_leftmost_witness :
  Re.findall (("a < b" ++ String Re.newline "c ")
              ++ String Re.lt_sign ("1.5" ++ String Re.gt_sign " <2>"))
  = "1.5" :: Re.findall " <2>".
Proof.
  apply ReFacts.findall_leftmost.
  - cbn. repeat split; try discriminate.
    intros _. exists " b"%string, "c "%string. split; [reflexivity|].
    cbn. intros [H|[H|[]]]; discriminate.
  - cbn. intros [H|[H|[H|[]]]]; discriminate.
  - cbn. intros [H|[H|[H|[]]]]; discriminate.
Defined.

(** ** The logged metric *)

Section Metric.

(** The sign of a rounded number is the sign handed in and nothing else. *)
Lemma SFabs_binary_round (p e : Z) (m : positive) (x : Z) :
  SFabs (binary_round p e true m x) = SFabs (binary_round p e false m x).
Proof.
  unfold binary_round, binary_round_aux.
  destruct (shl_align _ _ _) as [mz ez].
  destruct (shr_fexp p e (Z.pos mz) ez loc_Exact) as [mrs e'].
  destruct (shr_fexp p e _ e' loc_Exact) as [mrs' e''].
  destruct (shr_m mrs'); [reflexivity| |reflexivity].
  now destruct (Z.leb e'' (e - p)).
Qed.

Lemma SFabs_binary_normalize_opp (p e d x : Z) :
  SFabs (binary_normalize p e (- d) x false) = SFabs (binary_normalize p e d x false).
Proof.
  destruct d; cbn [Z.opp binary_normalize];
    [reflexivity | apply SFabs_binary_round | symmetry; apply SFabs_binary_round].
Qed.

(** [|x - y| = |y - x|] in floating point. *)
Lemma SFabs_SFsub_sym (p e : Z) (x y : float) :
  SFabs (SFsub p e x y) = SFabs (SFsub p e y x).
Proof.
  destruct x as [sx|sx| |sx mx ex], y as [sy|sy| |sy my ey];
    try reflexivity;
    try (destruct sx, sy; reflexivity).
  unfold SFsub. rewrite (Z.min_comm ey ex).
  rewrite <- SFabs_binary_normalize_opp. f_equal. f_equal. lia.
Qed.

Lemma combine_map {A B} (f : A -> B) (l1 l2 : list A) :
  combine (map f l1) (map f l2) =
  map (fun p => (f (fst p), f (snd p))) (combine l1 l2).
Proof.
  revert l2. induction l1 as [|x l1 IH]; intros [|y l2]; cbn; try reflexivity.
  now rewrite IH.
Qed.

(** The example library computes the mean absolute error. *)
Lemma example_computes_mean_absolute_error :
  computes_mean_absolute_error (L := Example.libraries).
Proof.
  assert (forall y_true y_pre,
             map (fun p => SFabs (SFsub prec emax (snd p) (fst p)))
                 (combine (map Example.to_float y_true) (map Example.to_float y_pre))
             = map (fun p => absolute_error (fst p) (snd p)) (combine y_true y_pre))
    as Herr.
  { intros y_true y_pre. rewrite combine_map, map_map.
    apply map_ext. intros [t q]. cbn [fst snd]. apply SFabs_SFsub_sym. }
  split.
  - intros y_true y_pre v. cbn [mean_absolute_error Example.libraries].
    unfold Example.mae.
    destruct (negb (Nat.eqb _ _)); [discriminate|].
    destruct (Nat.eqb _ 0); [discriminate|].
    destruct (negb (forallb _ _)); [discriminate|].
    intro E. injection E as <-.
    unfold mean_absolute_error_of. now rewrite Herr, length_map.
  - intros y_true y_pre Hne Hlen Hfin. cbn [mean_absolute_error Example.libraries].
    unfold Example.mae. rewrite !length_map, Hlen, Nat.eqb_refl. cbn [negb].
    destruct y_pre as [|q y_pre];
      [destruct y_true; [now elim Hne | discriminate]|].
    cbn [length Nat.eqb].
    replace (forallb Example.finite
               (map Example.to_float y_true ++ map Example.to_float (q :: y_pre)))
      with true; [eexists; reflexivity|].
    symmetry. rewrite <- map_app. apply forallb_forall. intros x Hx.
    apply in_map_iff in Hx as (y & <- & Hy).
    rewrite Forall_forall in Hfin. specialize (Hfin y Hy).
    destruct y; exact Hfin.
Qed.

End Metric.

(** C4: the two lists an epoch collects have one entry per pair, and what
    the validation and the test hook log as ['metric'] is the value
    [mean_absolute_error(y_true, y_pre)] returns for them (an exception of
    it is passed on and nothing is logged).  With [mean_absolute_error]
    computing the mean absolute error, that value is the sum of
    [|y_true[i] - y_pre[i]|] divided by the length [n] of the lists, and
    on non-empty lists of finite numbers the hooks return and log it. *)
Theorem epoch_end_logs_mae {L : Libraries} (c : Content)
    (y_true y_pre : list number) :
  extract_all (combine (generated_text c) (label c)) [] [] = Ok (y_true, y_pre) ->
  let n := length (combine (generated_text c) (label c)) in
  let mae :=
    SFdiv prec emax
      (fold_left (SFadd prec emax)
         (map (fun p => SFabs (SFsub prec emax (as_float (fst p)) (as_float (snd p))))
              (combine y_true y_pre))
         (S754_zero false))
      (float_of_int (Z.of_nat n)) in
  let logged (v : float) (m : method) (s : MInterface) :=
    (Ok tt, record (Log "metric" (LFloat v)) (record (Enter m) s)) in
  length y_true = n /\ length y_pre = n
  /\ (forall v,
         mean_absolute_error y_true y_pre = Ok v ->
         (forall s, val_content s = Some c ->
                    on_validation_epoch_end s = logged v m_on_validation_epoch_end s)
         /\ (forall s, test_content s = Some c ->
                       on_test_epoch_end s = logged v m_on_test_epoch_end s))
  /\ (forall e,
         mean_absolute_error y_true y_pre = Raise e ->
         (forall s, val_content s = Some c ->
                    on_validation_epoch_end s =
                    (Raise e, record (Enter m_on_validation_epoch_end) s))
         /\ (forall s, test_content s = Some c ->
                       on_test_epoch_end s =
                       (Raise e, record (Enter m_on_test_epoch_end) s)))
  /\ (computes_mean_absolute_error ->
      (forall v, mean_absolute_error y_true y_pre = Ok v -> v = mae)
      /\ (y_true <> [] ->
          Forall (fun y => is_finite (as_float y) = true) (y_true ++ y_pre) ->
          (forall s, val_content s = Some c ->
                     on_validation_epoch_end s =
                     logged mae m_on_validation_epoch_end s)
          /\ (forall s, test_content s = Some c ->
                        on_test_epoch_end s = logged mae m_on_test_epoch_end s))).
Proof.
  intros Hall n mae logged.
  rewrite extract_all_extracted in Hall.
  destruct (extracted_all _) as [rs|e] eqn:Hrs; [|discriminate].
  cbn [Py.bind app] in Hall. injection Hall as <- <-.
  destruct (extracted_all_kinds _ rs Hrs) as (Hlen & _).
  assert (mean_absolute_error_of (map snd rs) (map fst rs) = mae) as Hmae.
  { unfold mean_absolute_error_of, mae, n, absolute_error.
    now rewrite length_map, Hlen. }
  assert (forall s, val_content s = Some c ->
            on_validation_epoch_end s =
            match mean_absolute_error (map snd rs) (map fst rs) with
            | Ok v => logged v m_on_validation_epoch_end s
            | Raise e => (Raise e, record (Enter m_on_validation_epoch_end) s)
            end) as Hval.
  { intros s Hc. unfold on_validation_epoch_end, mbind, emit, modify.
    now rewrite (epoch_end_run "val_content" val_content
                   (record (Enter m_on_validation_epoch_end) s) c Hc), Hrs. }
  assert (forall s, test_content s = Some c ->
            on_test_epoch_end s =
            match mean_absolute_error (map snd rs) (map fst rs) with
            | Ok v => logged v m_on_test_epoch_end s
            | Raise e => (Raise e, record (Enter m_on_test_epoch_end) s)
            end) as Htest.
  { intros s Hc. unfold on_test_epoch_end, mbind, emit, modify.
    now rewrite (epoch_end_run "test_content" test_content
                   (record (Enter m_on_test_epoch_end) s) c Hc), Hrs. }
  assert (forall v, mean_absolute_error (map snd rs) (map fst rs) = Ok v ->
            (forall s, val_content s = Some c ->
                       on_validation_epoch_end s = logged v m_on_validation_epoch_end s)
            /\ (forall s, test_content s = Some c ->
                          on_test_epoch_end s = logged v m_on_test_epoch_end s))
    as Hok.
  { intros v Hv. split; intros s Hc;
      [rewrite (Hval s Hc) | rewrite (Htest s Hc)]; now rewrite Hv. }
  rewrite !length_map.
  split; [exact Hlen|]. split; [exact Hlen|].
  split; [exact Hok|]. split.
  - intros e Hv. split; intros s Hc;
      [rewrite (Hval s Hc) | rewrite (Htest s Hc)]; now rewrite Hv.
  - intros (Hvalue & Hreturns). split.
    + intros v Hv. now rewrite (Hvalue _ _ v Hv).
    + intros Hne Hfin.
      destruct (Hreturns (map snd rs) (map fst rs) Hne) as (v & Hv);
        [now rewrite !length_map | exact Hfin |].
      rewrite <- Hmae, <- (Hvalue _ _ v Hv). now apply Hok.
Qed.

(** The example validation epoch: references 1 and 2, predictions 1 and 1,
    the metric logged is 0.5. *)
Lemma epoch_end_logs_mae_witness :
  let y_true := [Float (float_of_int 1); Float (float_of_int 2)] in
  let y_pre := [Float (float_of_int 1); Float (float_of_int 1)] in
  mean_absolute_error_of y_true y_pre = float_of_ratio 1 2
  /\ on_validation_epoch_end Example.validated =
     (Ok tt,
      record (Log "metric" (LFloat (mean_absolute_error_of y_true y_pre)))
        (record (Enter m_on_validation_epoch_end) Example.validated)).
Proof.
  intros y_true y_pre.
  split; [vm_compute; reflexivity|].
  refine (proj1 (proj2 (proj2 (proj2 (proj2 (proj2
            (@epoch_end_logs_mae Example.libraries
               {| c_input := ["a"; "bc"]; generated_text := ["a<1>"; "bc<1>"];
                  label := ["<1>"; "<2>"] |} y_true y_pre eq_refl))))
            example_computes_mean_absolute_error) _ _)
            Example.validated eq_refl).
  - discriminate.
  - repeat constructor.
Defined.
